(** * PointGroup: instance grouping and multi-task loss

    A shallow embedding of [torch_points3d/models/panoptic/pointgroup.py]:
    the gate that switches clustering on, the two region-growing calls and
    their concatenation, the cluster batcher, the soft score target built
    from IoU, the masked offset losses and the weighted total loss.

    Numbers.  Tensor entries are modelled by exact rationals [Q]; the
    rounding of the numeric backend is outside this development.  Integer
    data (epochs, labels, batch ids) are [Z], tensor indices are [nat].

    Collaborators.  The backbone, the heads, [region_grow], [instance_iou],
    [nll_loss], [binary_cross_entropy] and [torch.norm] are library calls of
    the source; they are fields of the record [Collaborators] and every
    result below holds for all of them. *)

From Stdlib Require Import List ZArith QArith Qminmax Qabs Lqa Lia Bool Arith.
Import ListNotations.

Open Scope Q_scope.

(* ===================================================================== *)
(** * Part I: definitions                                                 *)
(* ===================================================================== *)

(** ** Exceptions *)

Inductive exn : Set :=
| AssertionError   (* a failed [assert] *)
| IndexError       (* an index or a mask that does not fit the tensor *)
| RuntimeError     (* shapes that cannot be combined, [torch.cat] of nothing *)
| AttributeError.  (* an attribute read before it was set *)

Inductive except (A : Type) : Type :=
| Ok (a : A)
| Raise (e : exn).

Arguments Ok {A} a.
Arguments Raise {A} e.

Definition bind {A B : Type} (c : except A) (k : A -> except B) : except B :=
  match c with
  | Ok a => k a
  | Raise e => Raise e
  end.

Notation "x <- c ;; k" := (bind c (fun x => k))
  (at level 61, c at next level, right associativity).
Notation "' pat <- c ;; k" := (bind c (fun x => match x with pat => k end))
  (at level 61, pat pattern, c at next level, right associativity).

(** ** Tensor primitives *)

Module Torch.

  (** [x < y] on scalars, as a boolean. *)
Definition Qlt_bool (x y : Q) : bool := negb (Qle_bool y x).

  (** [t < s] and [t > s] for a one-dimensional tensor and a scalar. *)
Definition lt_scalar (t : list Q) (s : Q) : list bool :=
    map (fun x => Qlt_bool x s) t.

Definition gt_scalar (t : list Q) (s : Q) : list bool :=
    map (fun x => Qlt_bool s x) t.

  (** Elementwise combination of two tensors of one shape. *)
Fixpoint zip_with {A B C : Type} (f : A -> B -> C) (a : list A) (b : list B)
    : list C :=
    match a, b with
    | x :: a', y :: b' => f x y :: zip_with f a' b'
    | _, _ => []
    end.

Definition logical_not (m : list bool) : list bool := map negb m.

Definition logical_and (a b : list bool) : list bool := zip_with andb a b.

  (** [a + b] on boolean tensors stays boolean: it is the elementwise or. *)
Definition add_bool (a b : list bool) : list bool := zip_with orb a b.

  (** [torch.sum] of a boolean tensor counts its true entries. *)
Definition sum_bool (m : list bool) : nat := count_occ bool_dec m true.

  (** [torch.sum] of a tensor of numbers; the empty sum is 0. *)
Definition sum (t : list Q) : Q := fold_left Qplus t 0.

Definition zeros_like (t : list Q) : list Q := map (fun _ => 0) t.

  (** The entries of [t] at the true positions of [m], in order. *)
Fixpoint select {A : Type} (t : list A) (m : list bool) : list A :=
    match t, m with
    | x :: t', b :: m' => if b then x :: select t' m' else select t' m'
    | _, _ => []
    end.

  (** [t[m]] for a boolean mask [m]: the mask must have the shape of the
      indexed dimension. *)
Definition masked_select {A : Type} (t : list A) (m : list bool)
    : except (list A) :=
    if Nat.eqb (length m) (length t) then Ok (select t m) else Raise IndexError.

  (** [t[m] = c] for a scalar [c]. *)
Fixpoint masked_fill (t : list Q) (m : list bool) (c : Q) : list Q :=
    match t, m with
    | x :: t', b :: m' => (if b then c else x) :: masked_fill t' m' c
    | _, _ => t
    end.

  (** [t[m] = vals]: the values are written to the true positions of [m]
      in order.  At its only use the values were read through the same
      mask, so there is one value per true position. *)
Fixpoint masked_assign (t : list Q) (m : list bool) (vals : list Q)
    : list Q :=
    match t, m with
    | x :: t', true :: m' =>
        match vals with
        | v :: vals' => v :: masked_assign t' m' vals'
        | [] => x :: masked_assign t' m' []
        end
    | x :: t', false :: m' => x :: masked_assign t' m' vals
    | _, _ => t
    end.

  (** [t.max(1)] on one row: the largest entry and the index of its first
      occurrence.  An empty reduction dimension is an error. *)
Fixpoint max_row_from (best : Q) (best_i i : nat) (row : list Q) : Q * nat :=
    match row with
    | [] => (best, best_i)
    | x :: row' =>
        if Qlt_bool best x then max_row_from x i (S i) row'
        else max_row_from best best_i (S i) row'
    end.

Definition max_row (row : list Q) : except (Q * nat) :=
    match row with
    | [] => Raise IndexError
    | x :: row' => Ok (max_row_from x 0%nat 1%nat row')
    end.

  (** [t.max(1)]: the pair (values, indices), one entry per row. *)
Fixpoint max_dim1 (t : list (list Q)) : except (list Q * list nat) :=
    match t with
    | [] => Ok ([], [])
    | row :: t' =>
        '(v, i) <- max_row row ;;
        '(vs, ixs) <- max_dim1 t' ;;
        Ok (v :: vs, i :: ixs)
    end.

  (** [t[idx]] for an index tensor [idx]: gathers rows, every index must
      be in range. *)
Fixpoint index_select {A : Type} (t : list A) (idx : list nat)
    : except (list A) :=
    match idx with
    | [] => Ok []
    | i :: idx' =>
        match nth_error t i with
        | Some x => rest <- index_select t idx' ;; Ok (x :: rest)
        | None => Raise IndexError
        end
    end.

  (** [torch.cat] of a list of tensors; it refuses the empty list. *)
Definition cat {A : Type} (ts : list (list A)) : except (list A) :=
    match ts with
    | [] => Raise RuntimeError
    | _ => Ok (concat ts)
    end.

  (** [c * torch.ones(n)]. *)
Definition scaled_ones (c : nat) (n : nat) : list nat := repeat c n.

  (** [t.to(device)], [t.cpu()]: the same values on another device. *)
Definition to_device {A : Type} (t : A) : A := t.

End Torch.

(** ** Points in space *)

Record vec3 : Set := Vec3 { vx : Q; vy : Q; vz : Q }.

Module V3.

Definition add (a b : vec3) : vec3 :=
    Vec3 (vx a + vx b) (vy a + vy b) (vz a + vz b).

Definition sub (a b : vec3) : vec3 :=
    Vec3 (vx a - vx b) (vy a - vy b) (vz a - vz b).

Definition mul (a b : vec3) : vec3 :=
    Vec3 (vx a * vx b) (vy a * vy b) (vz a * vz b).

Definition abs (a : vec3) : vec3 :=
    Vec3 (Qabs (vx a)) (Qabs (vy a)) (Qabs (vz a)).

  (** Every coordinate divided by one scalar. *)
Definition div_scalar (a : vec3) (s : Q) : vec3 :=
    Vec3 (vx a / s) (vy a / s) (vz a / s).

  (** [torch.sum(row, dim=-1)]. *)
Definition sum (a : vec3) : Q := Torch.sum [vx a; vy a; vz a].

  (** [a + b] on (N, 3) tensors, with the broadcasting of a single row. *)
Definition add_rows (a b : list vec3) : except (list vec3) :=
    match a, b with
    | [u], _ => Ok (map (add u) b)
    | _, [v] => Ok (map (fun u => add u v) a)
    | _, _ =>
        if Nat.eqb (length a) (length b) then Ok (Torch.zip_with add a b)
        else Raise RuntimeError
    end.

End V3.

(** ** Data of the model *)

(** A batch of points or of clusters ([torch_geometric.data.Data]).  The
    attribute [instance_labels] exists on the input batch only. *)
Module Data.
Record t : Type := Make {
    x : list (list Q);
    pos : list vec3;
    batch : list nat;
    instance_labels : option (list Z)
  }.
End Data.

Record PointGroupResults : Type := {
  semantic_logits : list (list Q);
  offset_logits : list vec3;
  cluster_scores : option (list Q);
  clusters : option (list (list nat))
}.

Record PointGrouplabels : Type := {
  center_label : list vec3;
  y : list Z;
  num_instances : list Z;
  instance_labels : list Z;
  instance_mask : list bool;
  vote_label : list vec3
}.

(** The keys of [opt.loss_weights]. *)
Inductive loss_key : Set :=
| K_semantic
| K_score_loss
| K_offset_norm_loss
| K_offset_dir_loss.

Definition loss_key_eqb (a b : loss_key) : bool :=
  match a, b with
  | K_semantic, K_semantic
  | K_score_loss, K_score_loss
  | K_offset_norm_loss, K_offset_norm_loss
  | K_offset_dir_loss, K_offset_dir_loss => true
  | _, _ => false
  end.

Record Options : Type := {
  prepare_epoch : Z;
  cluster_radius_search : Q;
  min_iou_threshold : Q;
  max_iou_threshold : Q;
  loss_weights : loss_key -> Q
}.

(** The model object after [set_input].  [training] is the train/eval flag
    every [torch.nn.Module] carries; the loss attributes are unset until a
    pass assigns them and keep their value until the next assignment. *)
Record PointGroup : Type := {
  opt : Options;
  _stuff_classes : list nat;
  training : bool;
  raw_pos : list vec3;
  input : Data.t;
  labels : list Z;
  all_labels : PointGrouplabels;
  output : option (list (list Q));
  all_outputs : option PointGroupResults;
  loss : option Q;
  semantic_loss : option Q;
  score_loss : option Q;
  offset_norm_loss : option Q;
  offset_dir_loss : option Q
}.

Definition set_outputs (m : PointGroup) (o : list (list Q))
  (r : PointGroupResults) : PointGroup :=
  {| opt := opt m; _stuff_classes := _stuff_classes m; training := training m;
     raw_pos := raw_pos m; input := input m; labels := labels m;
     all_labels := all_labels m;
     output := Some o; all_outputs := Some r;
     loss := loss m; semantic_loss := semantic_loss m;
     score_loss := score_loss m; offset_norm_loss := offset_norm_loss m;
     offset_dir_loss := offset_dir_loss m |}.

Definition set_loss (m : PointGroup) (v : Q) : PointGroup :=
  {| opt := opt m; _stuff_classes := _stuff_classes m; training := training m;
     raw_pos := raw_pos m; input := input m; labels := labels m;
     all_labels := all_labels m;
     output := output m; all_outputs := all_outputs m;
     loss := Some v; semantic_loss := semantic_loss m;
     score_loss := score_loss m; offset_norm_loss := offset_norm_loss m;
     offset_dir_loss := offset_dir_loss m |}.

Definition set_semantic_loss (m : PointGroup) (v : Q) : PointGroup :=
  {| opt := opt m; _stuff_classes := _stuff_classes m; training := training m;
     raw_pos := raw_pos m; input := input m; labels := labels m;
     all_labels := all_labels m;
     output := output m; all_outputs := all_outputs m;
     loss := loss m; semantic_loss := Some v;
     score_loss := score_loss m; offset_norm_loss := offset_norm_loss m;
     offset_dir_loss := offset_dir_loss m |}.

Definition set_score_loss (m : PointGroup) (v : Q) : PointGroup :=
  {| opt := opt m; _stuff_classes := _stuff_classes m; training := training m;
     raw_pos := raw_pos m; input := input m; labels := labels m;
     all_labels := all_labels m;
     output := output m; all_outputs := all_outputs m;
     loss := loss m; semantic_loss := semantic_loss m;
     score_loss := Some v; offset_norm_loss := offset_norm_loss m;
     offset_dir_loss := offset_dir_loss m |}.

Definition set_offset_norm_loss (m : PointGroup) (v : Q) : PointGroup :=
  {| opt := opt m; _stuff_classes := _stuff_classes m; training := training m;
     raw_pos := raw_pos m; input := input m; labels := labels m;
     all_labels := all_labels m;
     output := output m; all_outputs := all_outputs m;
     loss := loss m; semantic_loss := semantic_loss m;
     score_loss := score_loss m; offset_norm_loss := Some v;
     offset_dir_loss := offset_dir_loss m |}.

Definition set_offset_dir_loss (m : PointGroup) (v : Q) : PointGroup :=
  {| opt := opt m; _stuff_classes := _stuff_classes m; training := training m;
     raw_pos := raw_pos m; input := input m; labels := labels m;
     all_labels := all_labels m;
     output := output m; all_outputs := all_outputs m;
     loss := loss m; semantic_loss := semantic_loss m;
     score_loss := score_loss m; offset_norm_loss := offset_norm_loss m;
     offset_dir_loss := Some v |}.

(** [setattr(self, loss_name, loss)] for the names that occur as keys.  The
    key ["semantic"] names no attribute of the modelled state. *)
Definition setattr (m : PointGroup) (name : loss_key) (v : Q) : PointGroup :=
  match name with
  | K_semantic => m
  | K_score_loss => set_score_loss m v
  | K_offset_norm_loss => set_offset_norm_loss m v
  | K_offset_dir_loss => set_offset_dir_loss m v
  end.

(** [self.loss += v]. *)
Definition add_to_loss (m : PointGroup) (v : Q) : except PointGroup :=
  match loss m with
  | Some l => Ok (set_loss m (l + v))
  | None => Raise AttributeError
  end.

(** ** Collaborators *)

Record Collaborators : Type := {
  (** [self.Backbone(data).x]: one feature row per point. *)
  Backbone : Data.t -> list (list Q);
  (** [self.Semantic]: per-point class log-probabilities. *)
  Semantic : list (list Q) -> list (list Q);
  (** [self.Offset]: per-point displacement. *)
  Offset : list (list Q) -> list vec3;
  (** [self.Scorer(batch).x] and [self.ScorerHead]. *)
  Scorer : Data.t -> list (list Q);
  ScorerHead : list (list Q) -> list Q;
  (** [region_grow(pos, labels, batch, ignore_labels, radius)]. *)
  region_grow :
    list vec3 -> list nat -> list nat -> list nat -> Q -> list (list nat);
  (** [instance_iou(clusters, instance_labels, batch)]: one row per
      cluster, one column per ground-truth instance. *)
  instance_iou : list (list nat) -> list Z -> list nat -> list (list Q);
  (** [torch.nn.functional.nll_loss(input, target, ignore_index)]. *)
  nll_loss : list (list Q) -> list Z -> Z -> Q;
  (** [torch.nn.functional.binary_cross_entropy(input, target)]. *)
  binary_cross_entropy : list Q -> list Q -> Q;
  (** [torch.norm(row, p=2)] of one row; a square root, so not a rational
      operation. *)
  norm_p2 : vec3 -> Q;
  (** [torch_points3d.datasets.segmentation.IGNORE_LABEL]. *)
  IGNORE_LABEL : Z
}.

(** ** The soft score target (lines 123-132 of the source) *)

Module ScoreTarget.
Import Torch.

Section Thresholds.
Variables min_iou_threshold max_iou_threshold : Q.

Definition lower_mask (ious : list Q) : list bool :=
      lt_scalar ious min_iou_threshold.

Definition higher_mask (ious : list Q) : list bool :=
      gt_scalar ious max_iou_threshold.

Definition middle_mask (ious : list Q) : list bool :=
      logical_and (logical_not (lower_mask ious))
                  (logical_not (higher_mask ious)).

    (** [torch.sum(lower_mask + higher_mask + middle_mask) == ious.shape[0]] *)
Definition partition_assertion (ious : list Q) : bool :=
      Nat.eqb
        (sum_bool (add_bool (add_bool (lower_mask ious) (higher_mask ious))
                            (middle_mask ious)))
        (length ious).

Definition shat (ious : list Q) : except (list Q) :=
      if negb (partition_assertion ious) then Raise AssertionError else
      let shat := zeros_like ious in
      iou_middle <- masked_select ious (middle_mask ious) ;;
      let shat := masked_fill shat (higher_mask ious) 1 in
      let shat :=
        masked_assign shat (middle_mask ious)
          (map (fun iou => (iou - min_iou_threshold)
                           / (max_iou_threshold - min_iou_threshold))
               iou_middle) in
      Ok shat.
End Thresholds.

End ScoreTarget.

(** ** The model *)

Section Model.

Variable E : Collaborators.

(** [epoch == -1 or epoch > self.opt.prepare_epoch] *)
Definition clustering_active (epoch prepare_epoch : Z) : bool :=
  (epoch =? -1)%Z || (epoch >? prepare_epoch)%Z.

(** The loop of [forward] that gathers, per cluster, its members' features
    and positions and stamps them with the cluster's rank. *)
Fixpoint batch_clusters (backbone_features : list (list Q))
  (input_pos : list vec3) (i : nat) (all_clusters : list (list nat))
  : except (list (list (list Q)) * list (list vec3) * list (list nat)) :=
  match all_clusters with
  | [] => Ok ([], [], [])
  | cluster :: rest =>
      xi <- Torch.index_select backbone_features cluster ;;
      posi <- Torch.index_select input_pos cluster ;;
      '(x, pos, batch) <- batch_clusters backbone_features input_pos (S i) rest ;;
      Ok (xi :: x, posi :: pos,
          Torch.scaled_ones i (length cluster) :: batch)
  end.

(** The candidate clusters (lines 69-86): region growing on the raw
    positions, region growing on the positions shifted by the predicted
    offsets, and the two lists one after the other. *)
Definition candidate_clusters (m : PointGroup)
  (semantic_logits : list (list Q)) (offset_logits : list vec3)
  : except (list (list nat)) :=
  '(_, predicted_labels) <- Torch.max_dim1 semantic_logits ;;
  let clusters_pos :=
    region_grow E (Torch.to_device (raw_pos m)) predicted_labels
      (Torch.to_device (Data.batch (input m))) (_stuff_classes m)
      (cluster_radius_search (opt m)) in
  shifted <- V3.add_rows (Torch.to_device (raw_pos m)) offset_logits ;;
  let clusters_votes :=
    region_grow E shifted predicted_labels
      (Torch.to_device (Data.batch (input m))) (_stuff_classes m)
      (cluster_radius_search (opt m)) in
  let all_clusters := clusters_pos ++ clusters_votes in
  Ok (map Torch.to_device all_clusters).

(** The scores of the clusters (lines 87-96), skipped for an empty list. *)
Definition score_clusters (m : PointGroup)
  (backbone_features : list (list Q)) (all_clusters : list (list nat))
  : except (option (list Q)) :=
  if negb (Nat.eqb (length all_clusters) 0) then
    '(x, pos, batch) <-
      batch_clusters backbone_features (Data.pos (input m)) 0 all_clusters ;;
    x <- Torch.cat x ;;
    pos <- Torch.cat pos ;;
    batch <- Torch.cat batch ;;
    let batch_cluster :=
      Data.Make (Torch.to_device x) (Torch.to_device pos)
                (Torch.to_device batch) None in
    Ok (Some (ScorerHead E (Scorer E batch_cluster)))
  else Ok None.

(** Grouping and scoring (lines 66-96): the scores and the clusters, both
    absent unless clustering is active. *)
Definition group_and_score (m : PointGroup) (epoch : Z)
  (backbone_features semantic_logits : list (list Q))
  (offset_logits : list vec3)
  : except (option (list Q) * option (list (list nat))) :=
  if clustering_active epoch (prepare_epoch (opt m)) then
    all_clusters <- candidate_clusters m semantic_logits offset_logits ;;
    cluster_scores <- score_clusters m backbone_features all_clusters ;;
    Ok (cluster_scores, Some all_clusters)
  else Ok (None, None).

(** [_offset_loss]: the dictionary it returns, as the list of its items in
    insertion order. *)
Definition _offset_loss (data_labels : PointGrouplabels)
  (result : PointGroupResults) : except (list (loss_key * Q)) :=
  let instance_mask := instance_mask data_labels in
  pt_offsets <- Torch.masked_select (offset_logits result) instance_mask ;;
  gt_offsets <- Torch.masked_select (vote_label data_labels) instance_mask ;;
  let pt_diff := Torch.zip_with V3.sub pt_offsets gt_offsets in
  let pt_dist := map (fun d => V3.sum (V3.abs d)) pt_diff in
  let offset_norm_loss :=
    Torch.sum pt_dist
    / (inject_Z (Z.of_nat (Torch.sum_bool instance_mask)) + (1 # 1000000)) in
  let gt_offsets_norm := map (norm_p2 E) gt_offsets in
  let gt_offsets_ :=
    Torch.zip_with (fun v n => V3.div_scalar v (n + (1 # 100000000)))
      gt_offsets gt_offsets_norm in
  let pt_offsets_norm := map (norm_p2 E) pt_offsets in
  let pt_offsets_ :=
    Torch.zip_with (fun v n => V3.div_scalar v (n + (1 # 100000000)))
      pt_offsets pt_offsets_norm in
  let direction_diff :=
    map (fun p => - V3.sum p) (Torch.zip_with V3.mul gt_offsets_ pt_offsets_) in
  let offset_dir_loss :=
    Torch.sum direction_diff
    / (inject_Z (Z.of_nat (Torch.sum_bool instance_mask)) + (1 # 1000000)) in
  Ok [(K_offset_norm_loss, offset_norm_loss);
      (K_offset_dir_loss, offset_dir_loss)].

(** The closing loop of [_compute_loss] over the items of [offset_losses]. *)
Fixpoint add_offset_losses (m : PointGroup) (items : list (loss_key * Q))
  : except PointGroup :=
  match items with
  | [] => Ok m
  | (loss_name, l) :: rest =>
      let m := setattr m loss_name l in
      m <- add_to_loss m (loss_weights (opt m) loss_name * l) ;;
      add_offset_losses m rest
  end.

Definition _compute_loss (m : PointGroup) : except PointGroup :=
  match all_outputs m with
  | None => Raise AttributeError
  | Some out =>
      (* Semantic loss *)
      let l := nll_loss E (semantic_logits out) (labels m) (IGNORE_LABEL E) in
      let m := set_semantic_loss m l in
      let m := set_loss m (loss_weights (opt m) K_semantic * l) in
      (* Offset loss *)
      offset_losses <- _offset_loss (all_labels m) out ;;
      (* Score loss *)
      m <- match cluster_scores out with
           | Some scores =>
               match Data.instance_labels (input m), clusters out with
               | None, _ => Raise AttributeError
               | Some _, None => Raise RuntimeError
               | Some inst, Some cl =>
                   '(ious, _) <-
                     Torch.max_dim1
                       (instance_iou E cl (Torch.to_device inst)
                          (Torch.to_device (Data.batch (input m)))) ;;
                   shat <-
                     ScoreTarget.shat (min_iou_threshold (opt m))
                       (max_iou_threshold (opt m)) ious ;;
                   let s := binary_cross_entropy E scores shat in
                   let m := set_score_loss m s in
                   add_to_loss m (s * loss_weights (opt m) K_score_loss)
               end
           | None => Ok m
           end ;;
      add_offset_losses m offset_losses
  end.

Definition forward (m : PointGroup) (epoch : Z) : except PointGroup :=
  (* Backbone *)
  let backbone_features := Backbone E (input m) in
  (* Semantic and offset heads *)
  let semantic_logits := Semantic E backbone_features in
  let offset_logits := Offset E backbone_features in
  (* Grouping and scoring *)
  '(cluster_scores, all_clusters) <-
    group_and_score m epoch backbone_features semantic_logits offset_logits ;;
  let m :=
    set_outputs m semantic_logits
      {| semantic_logits := semantic_logits;
         offset_logits := offset_logits;
         clusters := all_clusters;
         cluster_scores := cluster_scores |} in
  _compute_loss m.

(** [forward()] with no argument: [epoch] takes its default. *)
Definition forward_default (m : PointGroup) : except PointGroup :=
  forward m (-1).

End Model.

(** ** Reading the score target of one cluster *)

(** What the source assigns to one entry of [shat], read off the three
    masked writes: the entry starts at 0, [shat[higher_mask] = 1] writes 1,
    [shat[middle_mask] = ...] writes the linear value. *)
Definition entry_target (min_iou max_iou iou : Q) : Q :=
  let lower := Torch.Qlt_bool iou min_iou in
  let higher := Torch.Qlt_bool max_iou iou in
  if negb lower && negb higher then (iou - min_iou) / (max_iou - min_iou)
  else if higher then 1
  else 0.

(** [target_of min max iou t]: in some pass, a cluster whose best IoU is
    [iou] receives the target [t]. *)
Definition target_of (min_iou max_iou iou t : Q) : Prop :=
  exists (ious shat : list Q) (i : nat),
    ScoreTarget.shat min_iou max_iou ious = Ok shat /\
    nth_error ious i = Some iou /\
    nth_error shat i = Some t.

(** The largest entry of a row. *)
Definition is_max_of (row : list Q) (v : Q) : Prop :=
  In v row /\ forall x, In x row -> x <= v.

(** The per-point tensors of a pass have one row per point. *)
Definition aligned (data_labels : PointGrouplabels)
  (offsets : list vec3) : Prop :=
  length (instance_mask data_labels) = length offsets /\
  length (instance_mask data_labels) = length (vote_label data_labels).

(** The denominator of both offset losses: [torch.sum(instance_mask) + 1e-6]. *)
Definition offset_denominator (mask : list bool) : Q :=
  inject_Z (Z.of_nat (Torch.sum_bool mask)) + (1 # 1000000).

(** ** Weights *)

(** The options with the entry [k] of [loss_weights] multiplied by [c]. *)
Definition scale_weight (o : Options) (k : loss_key) (c : Q) : Options :=
  {| prepare_epoch := prepare_epoch o;
     cluster_radius_search := cluster_radius_search o;
     min_iou_threshold := min_iou_threshold o;
     max_iou_threshold := max_iou_threshold o;
     loss_weights := fun k' =>
       if loss_key_eqb k' k then c * loss_weights o k' else loss_weights o k' |}.

Definition with_opt (m : PointGroup) (o : Options) : PointGroup :=
  {| opt := o; _stuff_classes := _stuff_classes m; training := training m;
     raw_pos := raw_pos m; input := input m; labels := labels m;
     all_labels := all_labels m;
     output := output m; all_outputs := all_outputs m;
     loss := loss m; semantic_loss := semantic_loss m;
     score_loss := score_loss m; offset_norm_loss := offset_norm_loss m;
     offset_dir_loss := offset_dir_loss m |}.

(** The sub-loss a key weighs, as left on the model by a pass; the score
    loss takes part only in a pass that has cluster scores. *)
Definition sub_loss (m : PointGroup) (k : loss_key) : option Q :=
  match k with
  | K_semantic => semantic_loss m
  | K_offset_norm_loss => offset_norm_loss m
  | K_offset_dir_loss => offset_dir_loss m
  | K_score_loss =>
      match all_outputs m with
      | Some out =>
          match cluster_scores out with
          | Some _ => score_loss m
          | None => None
          end
      | None => None
      end
  end.

(** The term a key adds to the total loss. *)
Definition contribution (m : PointGroup) (k : loss_key) : Q :=
  match sub_loss m k with
  | Some l => loss_weights (opt m) k * l
  | None => 0
  end.

(** ** A small concrete setting *)

Module Toy.

(** A rational stand-in for the Euclidean norm: exact on rows whose squared
    length is the square of a rational, rounded down otherwise. *)
Definition norm_isqrt (v : vec3) : Q :=
  let s := vx v * vx v + vy v * vy v + vz v * vz v in
  Z.sqrt (Qnum s * QDen s) # Qden s.

(** One region holding every point whose label is not ignored. *)
Definition grow_all (pos : list vec3) (labels batch ignore : list nat)
  (radius : Q) : list (list nat) :=
  let keep i := negb (existsb (Nat.eqb (nth i labels 0%nat)) ignore) in
  match filter keep (seq 0 (length pos)) with
  | [] => []
  | idx => [idx]
  end.

Definition E : Collaborators :=
  {| Backbone := Data.x;
     Semantic := fun f => f;
     Offset := map (fun row => Vec3 (nth 0 row 0) (nth 1 row 0) (nth 2 row 0));
     Scorer := fun d =>
       map (fun _ => [1 # 2]) (seq 0 (S (list_max (Data.batch d))));
     ScorerHead := map (fun row => hd 0 row);
     region_grow := grow_all;
     instance_iou := fun cl inst _ =>
       map (fun c => [Z.of_nat (length c) # Pos.of_nat (length inst); 1 # 4]) cl;
     nll_loss := fun _ target _ => inject_Z (Z.of_nat (length target)) / 2;
     binary_cross_entropy := fun s t =>
       Torch.sum (Torch.zip_with (fun a b => Qabs (a - b)) s t);
     norm_p2 := norm_isqrt;
     IGNORE_LABEL := (-1)%Z |}.

Definition weights (k : loss_key) : Q :=
  match k with
  | K_semantic => 1
  | K_score_loss => 1 # 2
  | K_offset_norm_loss => 2
  | K_offset_dir_loss => 3
  end.

Definition options (prepare : Z) : Options :=
  {| prepare_epoch := prepare;
     cluster_radius_search := 1 # 10;
     min_iou_threshold := 1 # 4;
     max_iou_threshold := 3 # 4;
     loss_weights := weights |}.

Definition data : Data.t :=
  Data.Make [[0; 1; 0]; [0; 1; 0]; [1; 0; 0]]
            [Vec3 0 0 0; Vec3 1 0 0; Vec3 5 5 5]
            [0; 0; 0]%nat
            (Some [7; 7; 0]%Z).

Definition point_labels (mask : list bool) (vote3 : vec3)
  : PointGrouplabels :=
  {| center_label := [Vec3 0 4 0; Vec3 0 4 0; Vec3 0 0 0];
     y := [1; 1; 0]%Z;
     num_instances := [1]%Z;
     instance_labels := [7; 7; 0]%Z;
     instance_mask := mask;
     vote_label := [Vec3 0 4 3; Vec3 3 4 0; vote3] |}.

(** A model after [set_input]: three points, the third of a stuff class. *)
Definition model (train : bool) (prepare : Z) (stuff : list nat)
  (mask : list bool) : PointGroup :=
  {| opt := options prepare; _stuff_classes := stuff; training := train;
     raw_pos := [Vec3 0 0 0; Vec3 1 0 0; Vec3 5 5 5];
     input := data; labels := [1; 1; 0]%Z;
     all_labels := point_labels mask (Vec3 0 0 0);
     output := None; all_outputs := None;
     loss := None; semantic_loss := None; score_loss := None;
     offset_norm_loss := None; offset_dir_loss := None |}.

Definition results (offset3 : vec3) (scores : option (list Q))
  (cl : option (list (list nat))) : PointGroupResults :=
  {| semantic_logits := [[0; 1; 0]; [0; 1; 0]; [1; 0; 0]];
     offset_logits := [Vec3 0 1 0; Vec3 0 1 0; offset3];
     cluster_scores := scores;
     clusters := cl |}.

(** In training mode, warm-up until epoch 5, class 0 is stuff. *)
Definition fresh : PointGroup := model true 5 [0%nat] [true; true; false].

(** The same model in evaluation mode. *)
Definition in_eval : PointGroup := model false 5 [0%nat] [true; true; false].

(** Every class is stuff: region growing finds nothing. *)
Definition all_stuff : PointGroup :=
  model true 5 [0%nat; 1%nat] [true; true; false].

(** No warm-up: [prepare_epoch] is -1. *)
Definition no_warmup : PointGroup :=
  model true (-1) [0%nat] [true; true; false].

(** A model whose outputs hold two clusters and their scores. *)
Definition scored : PointGroup :=
  set_outputs fresh [[0; 1; 0]; [0; 1; 0]; [1; 0; 0]]
    (results (Vec3 1 0 0) (Some [1 # 2; 1 # 2])
       (Some [[0; 1]; [0; 1]]%nat)).

End Toy.

(** ** The incoming batch and [set_input] *)

(** The batch object handed to [set_input].  Its attributes may be missing;
    [payload] holds the attributes that [forward] and [_compute_loss] read
    from [self.input] (with [instance_labels] among them). *)
Module Batch.
Record t : Type := Make {
  pos_x : option (list Q);
  pos_y : option (list Q);
  pos_z : option (list Q);
  center_label : option (list vec3);
  y : option (list Z);
  num_instances : option (list Z);
  instance_mask : option (list bool);
  vote_label : option (list vec3);
  payload : Data.t
}.
End Batch.

(** Reading an attribute; [data[l]] of a missing label is [None], whose
    [.to(device)] is an attribute error as well. *)
Definition getattr {A : Type} (o : option A) : except A :=
  match o with
  | Some a => Ok a
  | None => Raise AttributeError
  end.

Fixpoint zip3 (a b c : list Q) : list vec3 :=
  match a, b, c with
  | x :: a', y :: b', z :: c' => Vec3 x y z :: zip3 a' b' c'
  | _, _, _ => []
  end.

(** [torch.stack((a, b, c), 0).T]: the three tensors must have one size. *)
Definition stack3_T (a b c : list Q) : except (list vec3) :=
  if Nat.eqb (length a) (length b) && Nat.eqb (length b) (length c)
  then Ok (zip3 a b c)
  else Raise RuntimeError.

Definition set_input (m : PointGroup) (data : Batch.t) : except PointGroup :=
  px <- getattr (Batch.pos_x data) ;;
  py <- getattr (Batch.pos_y data) ;;
  pz <- getattr (Batch.pos_z data) ;;
  raw <- stack3_T px py pz ;;
  data_y <- getattr (Batch.y data) ;;
  (* all_labels = {l: data[l].to(device) for l in __REQUIRED_LABELS__} *)
  l_center <- getattr (Batch.center_label data) ;;
  l_y <- getattr (Batch.y data) ;;
  l_num <- getattr (Batch.num_instances data) ;;
  l_inst <- getattr (Data.instance_labels (Batch.payload data)) ;;
  l_mask <- getattr (Batch.instance_mask data) ;;
  l_vote <- getattr (Batch.vote_label data) ;;
  Ok {| opt := opt m; _stuff_classes := _stuff_classes m;
        training := training m;
        raw_pos := Torch.to_device raw;
        input := Batch.payload data;
        labels := Torch.to_device data_y;
        all_labels :=
          {| center_label := l_center; y := l_y; num_instances := l_num;
             instance_labels := l_inst; instance_mask := l_mask;
             vote_label := l_vote |};
        output := output m; all_outputs := all_outputs m;
        loss := loss m; semantic_loss := semantic_loss m;
        score_loss := score_loss m; offset_norm_loss := offset_norm_loss m;
        offset_dir_loss := offset_dir_loss m |}.

(** ** Vocabulary of the further properties *)

(** [r] holds the rows of [t] at the indices [idx], in order. *)
Definition gathers {A : Type} (t : list A) (idx : list nat) (r : list A)
  : Prop :=
  Forall2 (fun i v => nth_error t i = Some v) idx r.

(** Every index of every cluster is below [n]. *)
Definition in_range (n : nat) (all_clusters : list (list nat)) : bool :=
  forallb (forallb (fun i => Nat.ltb i n)) all_clusters.

(** The batch stamps of the clusters ranked from [i] on: the rank of each
    cluster, once per member. *)
Fixpoint cluster_stamps (i : nat) (all_clusters : list (list nat))
  : list (list nat) :=
  match all_clusters with
  | [] => []
  | c :: rest => repeat i (length c) :: cluster_stamps (S i) rest
  end.

(** The number of points over all clusters. *)
Definition total_size (all_clusters : list (list nat)) : nat :=
  length (concat all_clusters).

(** Two models that were given the same options and the same batch. *)
Definition same_inputs (m m0 : PointGroup) : Prop :=
  opt m = opt m0 /\ _stuff_classes m = _stuff_classes m0 /\
  raw_pos m = raw_pos m0 /\ input m = input m0 /\
  labels m = labels m0 /\ all_labels m = all_labels m0.

(** The L1 distance of two rows. *)
Definition l1_distance (p g : vec3) : Q :=
  Qabs (vx p - vx g) + Qabs (vy p - vy g) + Qabs (vz p - vz g).

Definition dot (a b : vec3) : Q := vx a * vx b + vy a * vy b + vz a * vz b.

(** [norm] is the Euclidean norm on the row [v]. *)
Definition exact_norm (norm : vec3 -> Q) (v : vec3) : Prop :=
  0 <= norm v /\ norm v * norm v == dot v v.

(** The model with the loss attributes a pass assigns: the total, the
    semantic loss, the score loss (kept as it was when the pass has none)
    and the two offset losses. *)
Definition with_losses (m : PointGroup) (total l : Q) (s : option Q)
  (n d : Q) : PointGroup :=
  {| opt := opt m; _stuff_classes := _stuff_classes m; training := training m;
     raw_pos := raw_pos m; input := input m; labels := labels m;
     all_labels := all_labels m;
     output := output m; all_outputs := all_outputs m;
     loss := Some total; semantic_loss := Some l;
     score_loss := match s with Some v => Some v | None => score_loss m end;
     offset_norm_loss := Some n; offset_dir_loss := Some d |}.

(** ** A small incoming batch *)

Module ToyBatch.

Definition batch (mask : option (list bool)) (pz : list Q) : Batch.t :=
  Batch.Make (Some [0; 1; 5]) (Some [0; 0; 5]) (Some pz)
    (Some [Vec3 0 4 0; Vec3 0 4 0; Vec3 0 0 0])
    (Some [1; 1; 0]%Z) (Some [1]%Z) mask
    (Some [Vec3 0 4 3; Vec3 3 4 0; Vec3 0 0 0])
    Toy.data.

Definition good : Batch.t := batch (Some [true; true; false]) [0; 0; 5].

(** A model that went through a pass before. *)
Definition used : PointGroup :=
  {| opt := Toy.options 5; _stuff_classes := [0%nat]; training := false;
     raw_pos := []; input := Toy.data; labels := [];
     all_labels := Toy.point_labels [] (Vec3 0 0 0);
     output := None; all_outputs := None;
     loss := Some 9; semantic_loss := Some 9; score_loss := Some 9;
     offset_norm_loss := Some 9; offset_dir_loss := Some 9 |}.



End ToyBatch.

(* ===================================================================== *)
(** * Part II: properties                                                 *)
(* ===================================================================== *)

(** ** Scalars and masks *)

Lemma Qlt_bool_true (x y : Q) : Torch.Qlt_bool x y = true <-> x < y.
Proof.
  unfold Torch.Qlt_bool. rewrite negb_true_iff.
  split; intro H.
  - apply Qnot_le_lt. intro Hle. apply Qle_bool_iff in Hle. congruence.
  - destruct (Qle_bool y x) eqn:Hb; [|reflexivity].
    apply Qle_bool_iff in Hb. exfalso. exact (Qlt_not_le _ _ H Hb).
Qed.

Lemma Qlt_bool_false (x y : Q) : Torch.Qlt_bool x y = false <-> y <= x.
Proof.
  unfold Torch.Qlt_bool. rewrite negb_false_iff. apply Qle_bool_iff.
Qed.

Lemma zip_with_length {A B C : Type} (f : A -> B -> C) (a : list A) :
  forall b, length a = length b -> length (Torch.zip_with f a b) = length a.
Proof.
  induction a as [|x a IH]; intros [|y b] Hlen; simpl in *; try congruence.
  f_equal. apply IH. congruence.
Qed.

Lemma lower_mask_length (lo : Q) (ious : list Q) :
  length (ScoreTarget.lower_mask lo ious) = length ious.
Proof. unfold ScoreTarget.lower_mask, Torch.lt_scalar. apply length_map. Qed.

Lemma higher_mask_length (hi : Q) (ious : list Q) :
  length (ScoreTarget.higher_mask hi ious) = length ious.
Proof. unfold ScoreTarget.higher_mask, Torch.gt_scalar. apply length_map. Qed.

Lemma middle_mask_cons (lo hi x : Q) (ious : list Q) :
  ScoreTarget.middle_mask lo hi (x :: ious) =
  (negb (Torch.Qlt_bool x lo) && negb (Torch.Qlt_bool hi x))
    :: ScoreTarget.middle_mask lo hi ious.
Proof. reflexivity. Qed.

Lemma middle_mask_length (lo hi : Q) (ious : list Q) :
  length (ScoreTarget.middle_mask lo hi ious) = length ious.
Proof.
  induction ious as [|x ious IH]; [reflexivity|].
  rewrite middle_mask_cons. simpl. now rewrite IH.
Qed.

Lemma lower_mask_nth (lo : Q) (ious : list Q) (i : nat) :
  nth_error (ScoreTarget.lower_mask lo ious) i =
  option_map (fun x => Torch.Qlt_bool x lo) (nth_error ious i).
Proof. unfold ScoreTarget.lower_mask, Torch.lt_scalar. apply nth_error_map. Qed.

Lemma higher_mask_nth (hi : Q) (ious : list Q) (i : nat) :
  nth_error (ScoreTarget.higher_mask hi ious) i =
  option_map (fun x => Torch.Qlt_bool hi x) (nth_error ious i).
Proof. unfold ScoreTarget.higher_mask, Torch.gt_scalar. apply nth_error_map. Qed.

Lemma middle_mask_nth (lo hi : Q) (ious : list Q) :
  forall i,
    nth_error (ScoreTarget.middle_mask lo hi ious) i =
    option_map
      (fun x => negb (Torch.Qlt_bool x lo) && negb (Torch.Qlt_bool hi x))
      (nth_error ious i).
Proof.
  induction ious as [|x ious IH]; intros [|i]; try reflexivity.
  rewrite middle_mask_cons. simpl. apply IH.
Qed.

(** The assertion of the source holds for every tensor and every pair of
    thresholds: an entry that is neither low nor high is in the middle. *)
Lemma partition_assertion_true (lo hi : Q) (ious : list Q) :
  ScoreTarget.partition_assertion lo hi ious = true.
Proof.
  unfold ScoreTarget.partition_assertion. apply Nat.eqb_eq.
  induction ious as [|x ious IH]; [reflexivity|].
  rewrite middle_mask_cons.
  change (ScoreTarget.lower_mask lo (x :: ious))
    with (Torch.Qlt_bool x lo :: ScoreTarget.lower_mask lo ious).
  change (ScoreTarget.higher_mask hi (x :: ious))
    with (Torch.Qlt_bool hi x :: ScoreTarget.higher_mask hi ious).
  unfold Torch.add_bool, Torch.sum_bool in *. simpl Torch.zip_with.
  destruct (Torch.Qlt_bool x lo), (Torch.Qlt_bool hi x); simpl;
    now rewrite IH.
Qed.

(** The three masked writes, entry by entry. *)
Lemma shat_entries (lo hi : Q) (ious : list Q) :
  ScoreTarget.shat lo hi ious = Ok (map (entry_target lo hi) ious).
Proof.
  unfold ScoreTarget.shat. rewrite partition_assertion_true. simpl negb. cbv iota.
  unfold Torch.masked_select. rewrite middle_mask_length, Nat.eqb_refl.
  simpl bind. f_equal.
  induction ious as [|x ious IH]; [reflexivity|].
  rewrite middle_mask_cons.
  change (ScoreTarget.higher_mask hi (x :: ious))
    with (Torch.Qlt_bool hi x :: ScoreTarget.higher_mask hi ious).
  unfold entry_target at 1. simpl.
  destruct (Torch.Qlt_bool x lo), (Torch.Qlt_bool hi x); simpl;
    f_equal; exact IH.
Qed.

Lemma target_of_entry (lo hi iou t : Q) :
  target_of lo hi iou t <-> t = entry_target lo hi iou.
Proof.
  split.
  - intros (ious & shat & i & Hs & Hx & Ht).
    rewrite shat_entries in Hs. injection Hs as <-.
    rewrite nth_error_map, Hx in Ht. simpl in Ht. congruence.
  - intros ->. exists [iou], [entry_target lo hi iou], 0%nat.
    rewrite shat_entries. repeat split.
Qed.

(** ** The three regions of the score target *)

Lemma entry_target_low (lo hi iou : Q) :
  lo < hi -> iou < lo -> entry_target lo hi iou = 0.
Proof.
  intros Hlh Hlow. unfold entry_target.
  assert (Hl : Torch.Qlt_bool iou lo = true) by now apply Qlt_bool_true.
  assert (Hh : Torch.Qlt_bool hi iou = false) by (apply Qlt_bool_false; lra).
  now rewrite Hl, Hh.
Qed.

Lemma entry_target_high (lo hi iou : Q) :
  hi < iou -> entry_target lo hi iou = 1.
Proof.
  intros Hhigh. unfold entry_target.
  assert (Hh : Torch.Qlt_bool hi iou = true) by now apply Qlt_bool_true.
  rewrite Hh. now rewrite andb_false_r.
Qed.

Lemma entry_target_middle (lo hi iou : Q) :
  lo <= iou -> iou <= hi ->
  entry_target lo hi iou = (iou - lo) / (hi - lo).
Proof.
  intros H1 H2. unfold entry_target.
  assert (Hl : Torch.Qlt_bool iou lo = false) by now apply Qlt_bool_false.
  assert (Hh : Torch.Qlt_bool hi iou = false) by now apply Qlt_bool_false.
  now rewrite Hl, Hh.
Qed.

(** The linear piece, freed from the division. *)
Lemma linear_piece (lo hi iou : Q) :
  lo < hi -> (iou - lo) / (hi - lo) * (hi - lo) == iou - lo.
Proof. intros H. field. lra. Qed.

Lemma entry_target_cases (lo hi iou : Q) :
  lo < hi ->
  (iou < lo /\ entry_target lo hi iou = 0) \/
  (lo <= iou /\ iou <= hi /\
   entry_target lo hi iou = (iou - lo) / (hi - lo)) \/
  (hi < iou /\ entry_target lo hi iou = 1).
Proof.
  intros Hlh.
  destruct (Qlt_le_dec iou lo) as [Hl|Hl].
  - left. split; [assumption|]. now apply entry_target_low.
  - destruct (Qlt_le_dec hi iou) as [Hh|Hh].
    + right; right. split; [assumption|]. now apply entry_target_high.
    + right; left. repeat split; try assumption.
      now apply entry_target_middle.
Qed.

Lemma entry_target_range (lo hi iou : Q) :
  lo < hi -> 0 <= entry_target lo hi iou <= 1.
Proof.
  intros Hlh.
  destruct (entry_target_cases lo hi iou Hlh)
    as [[_ ->]|[(H1 & H2 & ->)|[_ ->]]]; try lra.
  pose proof (linear_piece lo hi iou Hlh) as Hlin.
  set (t := (iou - lo) / (hi - lo)) in *. split; nra.
Qed.

Lemma entry_target_monotone (lo hi x y : Q) :
  lo < hi -> x <= y -> entry_target lo hi x <= entry_target lo hi y.
Proof.
  intros Hlh Hxy.
  pose proof (entry_target_range lo hi x Hlh) as Rx.
  pose proof (entry_target_range lo hi y Hlh) as Ry.
  destruct (entry_target_cases lo hi x Hlh)
    as [[_ Ex]|[(X1 & X2 & Ex)|[X1 Ex]]];
  destruct (entry_target_cases lo hi y Hlh)
    as [[Y1 Ey]|[(Y1 & Y2 & Ey)|[_ Ey]]];
  try (rewrite Ex in *); try (rewrite Ey in *); try lra.
  pose proof (linear_piece lo hi x Hlh) as Lx.
  pose proof (linear_piece lo hi y Hlh) as Ly.
  set (tx := (x - lo) / (hi - lo)) in *.
  set (ty := (y - lo) / (hi - lo)) in *. nra.
Qed.

Lemma entry_target_at_min (lo hi iou : Q) :
  lo < hi -> iou == lo -> entry_target lo hi iou == 0.
Proof.
  intros Hlh Heq. rewrite entry_target_middle by lra.
  pose proof (linear_piece lo hi iou Hlh) as L.
  set (t := (iou - lo) / (hi - lo)) in *. nra.
Qed.

Lemma entry_target_at_max (lo hi iou : Q) :
  lo < hi -> iou == hi -> entry_target lo hi iou == 1.
Proof.
  intros Hlh Heq. rewrite entry_target_middle by lra.
  pose proof (linear_piece lo hi iou Hlh) as L.
  set (t := (iou - lo) / (hi - lo)) in *. nra.
Qed.

(** The target moves by at most [|x - a| / (hi - lo)]. *)
Lemma entry_target_lipschitz (lo hi x a : Q) :
  lo < hi ->
  Qabs (entry_target lo hi x - entry_target lo hi a) * (hi - lo)
  <= Qabs (x - a).
Proof.
  intros Hlh.
  assert (sym : forall u v,
    u <= v ->
    Qabs (entry_target lo hi u - entry_target lo hi v) * (hi - lo)
    <= Qabs (u - v)).
  { intros u v Huv.
    pose proof (entry_target_monotone lo hi u v Hlh Huv) as Hm.
    rewrite (Qabs_neg (entry_target lo hi u - entry_target lo hi v)) by lra.
    rewrite (Qabs_neg (u - v)) by lra.
    pose proof (entry_target_range lo hi u Hlh) as Ru.
    pose proof (entry_target_range lo hi v Hlh) as Rv.
    destruct (entry_target_cases lo hi u Hlh)
      as [[U1 Eu]|[(U1 & U2 & Eu)|[U1 Eu]]];
    destruct (entry_target_cases lo hi v Hlh)
      as [[V1 Ev]|[(V1 & V2 & Ev)|[V1 Ev]]];
    rewrite Eu, Ev in *; try lra;
    try (pose proof (linear_piece lo hi u Hlh) as Lu;
         set (tu := (u - lo) / (hi - lo)) in * );
    try (pose proof (linear_piece lo hi v Hlh) as Lv;
         set (tv := (v - lo) / (hi - lo)) in * );
    nra. }
  destruct (Qlt_le_dec x a) as [Hxa|Hxa].
  - apply sym. lra.
  - rewrite (Qabs_wd (entry_target lo hi x - entry_target lo hi a)
               (- (entry_target lo hi a - entry_target lo hi x)))
      by ring.
    rewrite (Qabs_wd (x - a) (- (a - x))) by ring.
    rewrite !Qabs_opp. now apply sym.
Qed.

Lemma entry_target_continuous (lo hi a eps : Q) :
  lo < hi -> 0 < eps ->
  exists delta, 0 < delta /\
    forall x, Qabs (x - a) < delta ->
      Qabs (entry_target lo hi x - entry_target lo hi a) < eps.
Proof.
  intros Hlh Heps. exists (eps * (hi - lo)). split; [nra|].
  intros x Hx.
  pose proof (entry_target_lipschitz lo hi x a Hlh) as L.
  set (u := Qabs (entry_target lo hi x - entry_target lo hi a)) in *.
  set (w := Qabs (x - a)) in *. nra.
Qed.

(** ** Row maxima *)

Lemma max_row_from_spec (row : list Q) :
  forall best bi i,
    let v := fst (Torch.max_row_from best bi i row) in
    In v (best :: row) /\ forall x, In x (best :: row) -> x <= v.
Proof.
  induction row as [|y row IH]; intros best bi i; simpl.
  - split; [now left|]. intros x [<-|[]]. apply Qle_refl.
  - destruct (Torch.Qlt_bool best y) eqn:Hb.
    + apply Qlt_bool_true in Hb.
      destruct (IH y i (S i)) as [Hin Hmax]. split.
      * right. exact Hin.
      * intros x [<-|Hx]; [|now apply Hmax].
        apply Qle_trans with y; [lra|]. apply Hmax. now left.
    + apply Qlt_bool_false in Hb.
      destruct (IH best bi (S i)) as [Hin Hmax]. split.
      * destruct Hin as [Hin|Hin]; [now left|now right; right].
      * intros x [<-|[<-|Hx]].
        -- apply Hmax. now left.
        -- apply Qle_trans with best; [assumption|]. apply Hmax. now left.
        -- apply Hmax. now right.
Qed.

Lemma max_row_spec (row : list Q) :
  row <> [] -> exists v i, Torch.max_row row = Ok (v, i) /\ is_max_of row v.
Proof.
  destruct row as [|x row]; [congruence|]. intros _. simpl.
  destruct (Torch.max_row_from x 0 1 row) as [v i] eqn:Hr.
  exists v, i. split; [reflexivity|].
  pose proof (max_row_from_spec row x 0%nat 1%nat) as H.
  rewrite Hr in H. exact H.
Qed.

Lemma max_dim1_spec (t : list (list Q)) :
  Forall (fun row => row <> []) t ->
  exists vals ixs,
    Torch.max_dim1 t = Ok (vals, ixs) /\ Forall2 is_max_of t vals.
Proof.
  induction 1 as [|row t Hrow _ IH].
  - exists [], []. split; [reflexivity|constructor].
  - destruct (max_row_spec row Hrow) as (v & i & Hv & Hmax).
    destruct IH as (vals & ixs & Ht & Hall).
    exists (v :: vals), (i :: ixs). simpl. rewrite Hv. simpl. rewrite Ht.
    split; [reflexivity|now constructor].
Qed.

Lemma max_dim1_inv (t : list (list Q)) :
  forall vals ixs,
    Torch.max_dim1 t = Ok (vals, ixs) -> Forall2 is_max_of t vals.
Proof.
  induction t as [|row t IH]; intros vals ixs H; simpl in H.
  - injection H as <- <-. constructor.
  - destruct row as [|x row]; [discriminate|].
    destruct (max_row_spec (x :: row) ltac:(discriminate))
      as (v & i & Hv & Hmax).
    rewrite Hv in H. cbn [bind] in H.
    destruct (Torch.max_dim1 t) as [[vs js]|e]; [|discriminate].
    cbn [bind] in H. injection H as <- <-.
    constructor; [exact Hmax|]. now apply (IH vs js).
Qed.

Lemma Forall2_nth_error_l {A B : Type} (R : A -> B -> Prop)
  (l : list A) (l' : list B) :
  Forall2 R l l' ->
  forall i a, nth_error l i = Some a ->
    exists b, nth_error l' i = Some b /\ R a b.
Proof.
  induction 1 as [|a0 b0 l l' Hab _ IH]; intros [|i] a Hi; simpl in *;
    try discriminate.
  - injection Hi as <-. now exists b0.
  - now apply IH.
Qed.

(** ** The offset losses and the loss assembly *)

Section LossAssembly.

Variable E : Collaborators.

Lemma offset_loss_returns (data_labels : PointGrouplabels)
  (out : PointGroupResults) :
  aligned data_labels (offset_logits out) ->
  exists n d,
    _offset_loss E data_labels out
    = Ok [(K_offset_norm_loss, n); (K_offset_dir_loss, d)].
Proof.
  intros [H1 H2]. unfold _offset_loss, Torch.masked_select.
  rewrite H1, Nat.eqb_refl. simpl bind.
  rewrite <- H1, H2, Nat.eqb_refl. simpl bind.
  eexists. eexists. reflexivity.
Qed.

(** A pass without cluster scores. *)
Lemma compute_loss_without_scores (m : PointGroup) (out : PointGroupResults)
  (n d : Q) :
  all_outputs m = Some out ->
  cluster_scores out = None ->
  _offset_loss E (all_labels m) out
  = Ok [(K_offset_norm_loss, n); (K_offset_dir_loss, d)] ->
  let l := nll_loss E (semantic_logits out) (labels m) (IGNORE_LABEL E) in
  let w := loss_weights (opt m) in
  exists m',
    _compute_loss E m = Ok m' /\
    loss m' = Some (w K_semantic * l
                    + w K_offset_norm_loss * n + w K_offset_dir_loss * d) /\
    semantic_loss m' = Some l /\
    offset_norm_loss m' = Some n /\
    offset_dir_loss m' = Some d /\
    score_loss m' = score_loss m /\
    all_outputs m' = Some out /\
    opt m' = opt m.
Proof.
  intros Hout Hsc Hoff l w. unfold _compute_loss.
  rewrite Hout. cbn [all_labels set_loss set_semantic_loss].
  rewrite Hoff. cbn [bind]. rewrite Hsc. cbn.
  eexists. split; [reflexivity|]. cbn. repeat split; assumption.
Qed.

(** A pass with cluster scores. *)
Lemma compute_loss_with_scores (m : PointGroup) (out : PointGroupResults)
  (scores ious : list Q) (ixs : list nat) (cl : list (list nat))
  (inst : list Z) (n d : Q) :
  all_outputs m = Some out ->
  cluster_scores out = Some scores ->
  clusters out = Some cl ->
  Data.instance_labels (input m) = Some inst ->
  Torch.max_dim1 (instance_iou E cl inst (Data.batch (input m)))
  = Ok (ious, ixs) ->
  _offset_loss E (all_labels m) out
  = Ok [(K_offset_norm_loss, n); (K_offset_dir_loss, d)] ->
  let l := nll_loss E (semantic_logits out) (labels m) (IGNORE_LABEL E) in
  let w := loss_weights (opt m) in
  let s :=
    binary_cross_entropy E scores
      (map (entry_target (min_iou_threshold (opt m))
              (max_iou_threshold (opt m))) ious) in
  exists m',
    _compute_loss E m = Ok m' /\
    loss m' = Some (w K_semantic * l + s * w K_score_loss
                    + w K_offset_norm_loss * n + w K_offset_dir_loss * d) /\
    semantic_loss m' = Some l /\
    offset_norm_loss m' = Some n /\
    offset_dir_loss m' = Some d /\
    score_loss m' = Some s /\
    all_outputs m' = Some out /\
    opt m' = opt m.
Proof.
  intros Hout Hsc Hcl Hinst Hmax Hoff l w s. unfold _compute_loss.
  rewrite Hout. cbn [all_labels set_loss set_semantic_loss input opt].
  rewrite Hoff. cbn [bind]. rewrite Hsc, Hinst, Hcl.
  unfold Torch.to_device. rewrite Hmax. cbn [bind].
  rewrite shat_entries. cbn.
  eexists. split; [reflexivity|]. cbn. repeat split; assumption.
Qed.

End LossAssembly.

(** ** Passes, taken apart *)

Section Passes.

Variable E : Collaborators.

Lemma offset_loss_items (data_labels : PointGrouplabels)
  (out : PointGroupResults) (items : list (loss_key * Q)) :
  _offset_loss E data_labels out = Ok items ->
  exists n d, items = [(K_offset_norm_loss, n); (K_offset_dir_loss, d)].
Proof.
  unfold _offset_loss.
  destruct (Torch.masked_select (offset_logits out) _) as [pt|e];
    [|discriminate].
  destruct (Torch.masked_select (vote_label data_labels) _) as [gt|e];
    [|discriminate].
  cbn [bind]. intro H. injection H as <-. eexists. eexists. reflexivity.
Qed.

(** What a returning [_compute_loss] leaves on the model. *)
Lemma compute_loss_inv (m m' : PointGroup) (out : PointGroupResults) :
  all_outputs m = Some out ->
  _compute_loss E m = Ok m' ->
  let l := nll_loss E (semantic_logits out) (labels m) (IGNORE_LABEL E) in
  let w := loss_weights (opt m) in
  exists n d,
    _offset_loss E (all_labels m) out
    = Ok [(K_offset_norm_loss, n); (K_offset_dir_loss, d)] /\
    all_outputs m' = Some out /\
    opt m' = opt m /\
    semantic_loss m' = Some l /\
    offset_norm_loss m' = Some n /\
    offset_dir_loss m' = Some d /\
    match cluster_scores out with
    | None =>
        score_loss m' = score_loss m /\
        loss m' = Some (w K_semantic * l
                        + w K_offset_norm_loss * n + w K_offset_dir_loss * d)
    | Some scores =>
        exists cl inst ious ixs s,
          clusters out = Some cl /\
          Data.instance_labels (input m) = Some inst /\
          Torch.max_dim1 (instance_iou E cl inst (Data.batch (input m)))
          = Ok (ious, ixs) /\
          s = binary_cross_entropy E scores
                (map (entry_target (min_iou_threshold (opt m))
                        (max_iou_threshold (opt m))) ious) /\
          score_loss m' = Some s /\
          loss m' = Some (w K_semantic * l + s * w K_score_loss
                          + w K_offset_norm_loss * n
                          + w K_offset_dir_loss * d)
    end.
Proof.
  intros Hout Hrun l w.
  destruct (_offset_loss E (all_labels m) out) as [items|e] eqn:Hoff.
  2:{ unfold _compute_loss in Hrun. rewrite Hout in Hrun.
      cbn [all_labels set_loss set_semantic_loss] in Hrun.
      rewrite Hoff in Hrun. discriminate. }
  destruct (offset_loss_items _ _ _ Hoff) as (n & d & ->).
  exists n, d. split; [reflexivity|].
  destruct (cluster_scores out) as [scores|] eqn:Hsc.
  - destruct (Data.instance_labels (input m)) as [inst|] eqn:Hinst.
    2:{ unfold _compute_loss in Hrun. rewrite Hout in Hrun.
        cbn [all_labels set_loss set_semantic_loss input opt] in Hrun.
        rewrite Hoff in Hrun. cbn [bind] in Hrun.
        rewrite Hsc, Hinst in Hrun. discriminate. }
    destruct (clusters out) as [cl|] eqn:Hcl.
    2:{ unfold _compute_loss in Hrun. rewrite Hout in Hrun.
        cbn [all_labels set_loss set_semantic_loss input opt] in Hrun.
        rewrite Hoff in Hrun. cbn [bind] in Hrun.
        rewrite Hsc, Hinst, Hcl in Hrun. discriminate. }
    destruct (Torch.max_dim1 (instance_iou E cl inst (Data.batch (input m))))
      as [[ious ixs]|e] eqn:Hmax.
    2:{ unfold _compute_loss in Hrun. rewrite Hout in Hrun.
        cbn [all_labels set_loss set_semantic_loss input opt] in Hrun.
        rewrite Hoff in Hrun. cbn [bind] in Hrun.
        rewrite Hsc, Hinst, Hcl in Hrun. unfold Torch.to_device in Hrun.
        rewrite Hmax in Hrun. discriminate. }
    destruct (compute_loss_with_scores E m out scores ious ixs cl inst n d
                Hout Hsc Hcl Hinst Hmax Hoff)
      as (m2 & Hm2 & Hloss & Hsem & Hn & Hd & Hs & Ho & Hopt).
    rewrite Hm2 in Hrun. injection Hrun as <-.
    repeat (split; [assumption|]).
    exists cl, inst, ious, ixs. eexists.
    split; [reflexivity|]. split; [reflexivity|]. split; [exact Hmax|].
    split; [reflexivity|]. split; assumption.
  - destruct (compute_loss_without_scores E m out n d Hout Hsc Hoff)
      as (m2 & Hm2 & Hloss & Hsem & Hn & Hd & Hs & Ho & Hopt).
    rewrite Hm2 in Hrun. injection Hrun as <-.
    repeat (split; [assumption|]). assumption.
Qed.

Lemma forward_inv (m m' : PointGroup) (epoch : Z) :
  forward E m epoch = Ok m' ->
  let backbone_features := Backbone E (input m) in
  let sl := Semantic E backbone_features in
  let ol := Offset E backbone_features in
  exists sc cls,
    group_and_score E m epoch backbone_features sl ol = Ok (sc, cls) /\
    _compute_loss E
      (set_outputs m sl
         {| semantic_logits := sl; offset_logits := ol;
            cluster_scores := sc; clusters := cls |}) = Ok m'.
Proof.
  intros H. cbv zeta. unfold forward in H.
  destruct (group_and_score E m epoch _ _ _) as [[sc cls]|e];
    [|discriminate].
  exists sc, cls. split; [reflexivity|exact H].
Qed.

Lemma group_and_score_inactive (m : PointGroup) (epoch : Z)
  (bf sl : list (list Q)) (ol : list vec3) :
  clustering_active epoch (prepare_epoch (opt m)) = false ->
  group_and_score E m epoch bf sl ol = Ok (None, None).
Proof. intro H. unfold group_and_score. now rewrite H. Qed.

(** The clusterer returns as soon as its two library calls can be made. *)
Lemma candidate_clusters_returns (m : PointGroup) (sl : list (list Q))
  (ol : list vec3) (vals : list Q) (predicted_labels : list nat)
  (shifted : list vec3) :
  Torch.max_dim1 sl = Ok (vals, predicted_labels) ->
  V3.add_rows (raw_pos m) ol = Ok shifted ->
  candidate_clusters E m sl ol
  = Ok (region_grow E (raw_pos m) predicted_labels
          (Data.batch (input m)) (_stuff_classes m)
          (cluster_radius_search (opt m))
        ++ region_grow E shifted predicted_labels
             (Data.batch (input m)) (_stuff_classes m)
             (cluster_radius_search (opt m))).
Proof.
  intros Hmax Hadd. unfold candidate_clusters. rewrite Hmax. cbn [bind].
  unfold Torch.to_device. rewrite Hadd. cbn [bind]. now rewrite map_id.
Qed.

Lemma candidate_clusters_inv (m : PointGroup) (sl : list (list Q))
  (ol : list vec3) (all : list (list nat)) :
  candidate_clusters E m sl ol = Ok all ->
  exists vals predicted_labels shifted,
    Torch.max_dim1 sl = Ok (vals, predicted_labels) /\
    V3.add_rows (raw_pos m) ol = Ok shifted.
Proof.
  unfold candidate_clusters.
  destruct (Torch.max_dim1 sl) as [[vals pl]|e]; [|discriminate].
  cbn [bind]. unfold Torch.to_device.
  destruct (V3.add_rows (raw_pos m) ol) as [shifted|e]; [|discriminate].
  intros _. now exists vals, pl, shifted.
Qed.

Lemma score_clusters_inv (m : PointGroup) (bf : list (list Q))
  (all : list (list nat)) (sc : option (list Q)) :
  score_clusters E m bf all = Ok sc ->
  (all = [] -> sc = None) /\ (all <> [] -> exists scores, sc = Some scores).
Proof.
  unfold score_clusters. destruct all as [|c rest].
  - cbn. intro H. injection H as <-. split; [reflexivity|].
    intro Hne. now elim Hne.
  - cbn [length Nat.eqb negb].
    destruct (batch_clusters bf (Data.pos (input m)) 0 (c :: rest))
      as [[[x pos] batch]|e]; [|discriminate].
    cbn [bind].
    destruct (Torch.cat x); [|discriminate]. cbn [bind].
    destruct (Torch.cat pos); [|discriminate]. cbn [bind].
    destruct (Torch.cat batch); [|discriminate]. cbn [bind].
    intro H. injection H as <-. split; [discriminate|].
    intros _. eexists. reflexivity.
Qed.

(** With clustering on, the cluster list of a returning grouping stage is
    what the clusterer returned. *)
Lemma group_and_score_active (m : PointGroup) (epoch : Z)
  (bf sl : list (list Q)) (ol : list vec3)
  (sc : option (list Q)) (cls : option (list (list nat))) :
  clustering_active epoch (prepare_epoch (opt m)) = true ->
  group_and_score E m epoch bf sl ol = Ok (sc, cls) ->
  exists all,
    candidate_clusters E m sl ol = Ok all /\
    score_clusters E m bf all = Ok sc /\
    cls = Some all.
Proof.
  intros Hact. unfold group_and_score. rewrite Hact.
  destruct (candidate_clusters E m sl ol) as [all|e]; [|discriminate].
  cbn [bind].
  destruct (score_clusters E m bf all) as [sc'|e] eqn:Hs; [|discriminate].
  cbn [bind]. intro H. injection H as <- <-. exists all.
  split; [reflexivity|]. split; [exact Hs|reflexivity].
Qed.

End Passes.

Lemma add_rows_nth (a b s : list vec3) (i : nat) (p o : vec3) :
  V3.add_rows a b = Ok s ->
  length a = length b ->
  nth_error a i = Some p -> nth_error b i = Some o ->
  nth_error s i = Some (V3.add p o).
Proof.
  intros Hs Hlen Ha Hb.
  assert (Hz : forall (a b : list vec3) i,
             nth_error a i = Some p -> nth_error b i = Some o ->
             nth_error (Torch.zip_with V3.add a b) i = Some (V3.add p o)).
  { clear. induction a as [|x a IH]; intros [|y b] [|i] Ha Hb;
      simpl in *; try discriminate.
    - congruence.
    - now apply IH. }
  assert (Hzip : s = Torch.zip_with V3.add a b).
  { unfold V3.add_rows in Hs.
    destruct a as [|u [|u' a]]; destruct b as [|v [|v' b]];
      simpl in Hlen; try discriminate; simpl in Hs;
      try (injection Hs as <-; reflexivity).
    injection Hlen as Hlen. rewrite Hlen, Nat.eqb_refl in Hs.
    injection Hs as <-. reflexivity. }
  subst s. now apply Hz.
Qed.

(** ** The score target (claims C1, C2, C3) *)

(** C1.  In a pass that has cluster scores, given
    [0 <= min_iou < max_iou <= 1]: whenever [_compute_loss] returns, the
    score loss it stores is the binary cross-entropy of the scores against
    a target tensor [shat] with one entry per row of the IoU matrix (per
    cluster), and the entry of a cluster is computed from the largest IoU
    of its row (the maximum over all ground-truth instances): it is 0 when
    that IoU is below [min_iou], 1 when it is above [max_iou], and
    [(IoU - min_iou) / (max_iou - min_iou)] in between.  [_compute_loss]
    does return when the clusters and the instance labels are there, the
    per-point tensors have one length and no row of the IoU matrix is
    empty. *)
Theorem C1_score_target_piecewise (E : Collaborators) (m : PointGroup)
  (out : PointGroupResults) (scores : list Q) :
  let min_iou := min_iou_threshold (opt m) in
  let max_iou := max_iou_threshold (opt m) in
  all_outputs m = Some out ->
  cluster_scores out = Some scores ->
  0 <= min_iou /\ min_iou < max_iou /\ max_iou <= 1 ->
  (forall m', _compute_loss E m = Ok m' ->
     exists cl inst shat,
       clusters out = Some cl /\
       Data.instance_labels (input m) = Some inst /\
       let iou_matrix := instance_iou E cl inst (Data.batch (input m)) in
       score_loss m' = Some (binary_cross_entropy E scores shat) /\
       length shat = length iou_matrix /\
       forall i row, nth_error iou_matrix i = Some row ->
         exists iou t,
           is_max_of row iou /\
           nth_error shat i = Some t /\
           (iou < min_iou -> t = 0) /\
           (max_iou < iou -> t = 1) /\
           (min_iou <= iou -> iou <= max_iou ->
            t = (iou - min_iou) / (max_iou - min_iou))) /\
  (forall cl inst,
     clusters out = Some cl ->
     Data.instance_labels (input m) = Some inst ->
     aligned (all_labels m) (offset_logits out) ->
     Forall (fun row => row <> [])
       (instance_iou E cl inst (Data.batch (input m))) ->
     exists m', _compute_loss E m = Ok m').
Proof.
  intros lo hi Hout Hsc (H0 & Hlh & H1). split.
  - intros m' Hrun.
    pose proof (compute_loss_inv E m m' out Hout Hrun) as Hinv.
    cbv zeta in Hinv. rewrite Hsc in Hinv.
    destruct Hinv as (n & d & _ & _ & _ & _ & _ & _ & cl & inst & ious & ixs
                      & s & Hcl & Hinst & Hmax & Hs & Hscore & _).
    pose proof (max_dim1_inv _ _ _ Hmax) as Hall.
    exists cl, inst, (map (entry_target lo hi) ious).
    split; [exact Hcl|]. split; [exact Hinst|]. cbv zeta.
    split; [now rewrite Hscore, Hs|]. split.
    + rewrite length_map. symmetry. eapply Forall2_length. exact Hall.
    + intros i row Hrow.
      destruct (Forall2_nth_error_l _ _ _ Hall i row Hrow)
        as (iou & Hiou & Hm).
      exists iou, (entry_target lo hi iou). split; [exact Hm|]. split.
      * rewrite nth_error_map, Hiou. reflexivity.
      * split; [|split].
        -- intro Hlow. now apply entry_target_low.
        -- intro Hhigh. now apply entry_target_high.
        -- intros Ha Hb. now apply entry_target_middle.
  - intros cl inst Hcl Hinst Hal Hrows.
    destruct (max_dim1_spec _ Hrows) as (ious & ixs & Hmax & _).
    destruct (offset_loss_returns E _ _ Hal) as (n & d & Hoff).
    destruct (compute_loss_with_scores E m out scores ious ixs cl inst n d
                Hout Hsc Hcl Hinst Hmax Hoff) as (m' & Hm' & _).
    now exists m'.
Qed.

(** C2.  With [0 <= min_iou < max_iou <= 1] fixed, the target the source
    assigns to a cluster is a function of the cluster's IoU alone; it is
    monotonic non-decreasing, equals 0 at [IoU = min_iou] and 1 at
    [IoU = max_iou], and is continuous at both thresholds. *)
Theorem C2_score_target_monotone_continuous (min_iou max_iou : Q) :
  0 <= min_iou /\ min_iou < max_iou /\ max_iou <= 1 ->
  (forall iou, exists t, target_of min_iou max_iou iou t) /\
  (forall iou t t',
     target_of min_iou max_iou iou t -> target_of min_iou max_iou iou t' ->
     t = t') /\
  (forall iou1 iou2 t1 t2,
     target_of min_iou max_iou iou1 t1 ->
     target_of min_iou max_iou iou2 t2 ->
     iou1 <= iou2 -> t1 <= t2) /\
  (forall iou t,
     target_of min_iou max_iou iou t -> iou == min_iou -> t == 0) /\
  (forall iou t,
     target_of min_iou max_iou iou t -> iou == max_iou -> t == 1) /\
  (forall a, a == min_iou \/ a == max_iou ->
     forall eps, 0 < eps ->
       exists delta, 0 < delta /\
         forall iou t ta,
           target_of min_iou max_iou a ta ->
           target_of min_iou max_iou iou t ->
           Qabs (iou - a) < delta -> Qabs (t - ta) < eps).
Proof.
  intros (H0 & Hlh & H1). repeat split.
  - intro iou. exists (entry_target min_iou max_iou iou).
    now apply target_of_entry.
  - intros iou t t' Ht Ht'. apply target_of_entry in Ht, Ht'. congruence.
  - intros x y tx ty Hx Hy Hxy.
    apply target_of_entry in Hx, Hy. subst.
    now apply entry_target_monotone.
  - intros iou t Ht Heq. apply target_of_entry in Ht. subst.
    now apply entry_target_at_min.
  - intros iou t Ht Heq. apply target_of_entry in Ht. subst.
    now apply entry_target_at_max.
  - intros a _ eps Heps.
    destruct (entry_target_continuous min_iou max_iou a eps Hlh Heps)
      as (delta & Hd & Hcont).
    exists delta. split; [exact Hd|].
    intros iou t ta Hta Ht Hnear.
    apply target_of_entry in Hta, Ht. subst. now apply Hcont.
Qed.

(** C3.  Given [min_iou < max_iou], for every tensor of per-cluster IoU
    values the masks low ([IoU < min_iou]), high ([IoU > max_iou]) and
    middle (neither) are pairwise disjoint and jointly exhaustive at every
    cluster, their counts add up to the number of clusters, the assertion
    of the source holds and the target computation does not raise. *)
Theorem C3_iou_buckets_partition (min_iou max_iou : Q) (ious : list Q) :
  min_iou < max_iou ->
  let low := ScoreTarget.lower_mask min_iou ious in
  let high := ScoreTarget.higher_mask max_iou ious in
  let mid := ScoreTarget.middle_mask min_iou max_iou ious in
  (forall i, (i < length ious)%nat ->
     exists l h c,
       nth_error low i = Some l /\ nth_error high i = Some h /\
       nth_error mid i = Some c /\
       l && h = false /\ l && c = false /\ h && c = false /\
       l || h || c = true) /\
  (Torch.sum_bool low + Torch.sum_bool high + Torch.sum_bool mid
   = length ious)%nat /\
  ScoreTarget.partition_assertion min_iou max_iou ious = true /\
  exists shat, ScoreTarget.shat min_iou max_iou ious = Ok shat.
Proof.
  intros Hlh low high mid.
  assert (Hexcl : forall x,
    Torch.Qlt_bool x min_iou && Torch.Qlt_bool max_iou x = false).
  { intro x. destruct (Torch.Qlt_bool x min_iou) eqn:Hl; [|reflexivity].
    apply Qlt_bool_true in Hl. apply Qlt_bool_false. lra. }
  split; [|split; [|split]].
  - intros i Hi.
    destruct (nth_error ious i) as [x|] eqn:Hx;
      [|apply nth_error_None in Hx; lia].
    exists (Torch.Qlt_bool x min_iou), (Torch.Qlt_bool max_iou x),
      (negb (Torch.Qlt_bool x min_iou) && negb (Torch.Qlt_bool max_iou x)).
    unfold low, high, mid.
    rewrite lower_mask_nth, higher_mask_nth, middle_mask_nth, Hx.
    specialize (Hexcl x). cbn [option_map].
    destruct (Torch.Qlt_bool x min_iou), (Torch.Qlt_bool max_iou x);
      simpl in *; repeat split; congruence.
  - unfold low, high, mid. clear low high mid.
    induction ious as [|x ious IH]; [reflexivity|].
    rewrite middle_mask_cons.
    change (ScoreTarget.lower_mask min_iou (x :: ious))
      with (Torch.Qlt_bool x min_iou :: ScoreTarget.lower_mask min_iou ious).
    change (ScoreTarget.higher_mask max_iou (x :: ious))
      with (Torch.Qlt_bool max_iou x :: ScoreTarget.higher_mask max_iou ious).
    specialize (Hexcl x). unfold Torch.sum_bool in *.
    destruct (Torch.Qlt_bool x min_iou), (Torch.Qlt_bool max_iou x);
      simpl in *; try discriminate; lia.
  - apply partition_assertion_true.
  - rewrite shat_entries. eexists. reflexivity.
Qed.

(** ** The gate and the clusterer (claims C4, C5, C6, C10) *)

(** C4.  When clustering is active and region growing is reached, the
    candidate cluster list is the list A of regions grown on the raw
    positions followed by the list B of regions grown on the positions
    shifted by the predicted offsets (point by point, raw position plus
    offset), nothing removed and nothing merged: its length is |A| + |B|;
    and this list is the cluster list in the outputs of a pass that
    returns. *)
Theorem C4_clusters_are_concatenation (E : Collaborators) (m : PointGroup)
  (epoch : Z) (vals : list Q) (predicted_labels : list nat)
  (shifted : list vec3) :
  let sl := Semantic E (Backbone E (input m)) in
  let offsets := Offset E (Backbone E (input m)) in
  let A := region_grow E (raw_pos m) predicted_labels
             (Data.batch (input m)) (_stuff_classes m)
             (cluster_radius_search (opt m)) in
  let B := region_grow E shifted predicted_labels
             (Data.batch (input m)) (_stuff_classes m)
             (cluster_radius_search (opt m)) in
  clustering_active epoch (prepare_epoch (opt m)) = true ->
  Torch.max_dim1 sl = Ok (vals, predicted_labels) ->
  V3.add_rows (raw_pos m) offsets = Ok shifted ->
  (length (raw_pos m) = length offsets ->
   forall i p o,
     nth_error (raw_pos m) i = Some p -> nth_error offsets i = Some o ->
     nth_error shifted i = Some (V3.add p o)) /\
  candidate_clusters E m sl offsets = Ok (A ++ B) /\
  length (A ++ B) = (length A + length B)%nat /\
  (forall m', forward E m epoch = Ok m' ->
     exists out, all_outputs m' = Some out /\ clusters out = Some (A ++ B)).
Proof.
  intros sl offsets A B Hact Hmax Hadd.
  pose proof (candidate_clusters_returns E m sl offsets vals
                predicted_labels shifted Hmax Hadd) as Hcand.
  fold A B in Hcand.
  split; [|split; [exact Hcand|split; [apply length_app|]]].
  - intros Hlen i p o Hp Ho. exact (add_rows_nth _ _ _ i p o Hadd Hlen Hp Ho).
  - intros m' Hrun.
    destruct (forward_inv E m m' epoch Hrun) as (sc & cls & Hg & Hc).
    destruct (group_and_score_active E m epoch _ _ _ sc cls Hact Hg)
      as (all & Hall & _ & Hcls).
    fold sl offsets in Hall. rewrite Hcand in Hall. injection Hall as <-.
    match type of Hc with
    | _compute_loss _ ?mm = _ =>
        destruct (compute_loss_inv E mm m' _ eq_refl Hc)
          as (n & d & _ & Hout & _)
    end.
    eexists. split; [exact Hout|]. exact Hcls.
Qed.

(** C5 (amended).  In every pass in which clustering is inactive, grouping
    and scoring yield no cluster list and no cluster scores (both are
    absent); a pass that returns stores the semantic and the two offset
    losses, leaves the score-loss attribute untouched and totals only the
    weighted semantic and offset losses; with per-point tensors of one
    length the pass returns.  A call that passes no epoch (the default -1)
    has clustering active whatever the model's train/eval flag. *)
Theorem C5_inactive_pass (E : Collaborators) (m : PointGroup) (epoch : Z) :
  let backbone_features := Backbone E (input m) in
  let sl := Semantic E backbone_features in
  let ol := Offset E backbone_features in
  let w := loss_weights (opt m) in
  clustering_active epoch (prepare_epoch (opt m)) = false ->
  group_and_score E m epoch backbone_features sl ol = Ok (None, None) /\
  (forall m', forward E m epoch = Ok m' ->
     exists out sem n d,
       all_outputs m' = Some out /\
       clusters out = None /\
       cluster_scores out = None /\
       semantic_loss m' = Some sem /\
       offset_norm_loss m' = Some n /\
       offset_dir_loss m' = Some d /\
       score_loss m' = score_loss m /\
       contribution m' K_score_loss = 0 /\
       loss m' = Some (w K_semantic * sem
                       + w K_offset_norm_loss * n
                       + w K_offset_dir_loss * d)) /\
  (aligned (all_labels m) ol -> exists m', forward E m epoch = Ok m') /\
  (forall m0 : PointGroup,
     clustering_active (-1) (prepare_epoch (opt m0)) = true).
Proof.
  intros bf sl ol w Hin.
  pose proof (group_and_score_inactive E m epoch bf sl ol Hin) as Hg.
  split; [exact Hg|]. split; [|split].
  - intros m' Hrun.
    destruct (forward_inv E m m' epoch Hrun) as (sc & cls & Hg' & Hc).
    fold bf sl ol in Hg'. rewrite Hg in Hg'. injection Hg' as <- <-.
    match type of Hc with
    | _compute_loss _ ?mm = _ =>
        destruct (compute_loss_inv E mm m' _ eq_refl Hc)
          as (n & d & _ & Hout & Hopt & Hsem & Hn & Hd & Hs & Hloss)
    end.
    eexists. eexists. exists n, d.
    split; [exact Hout|]. split; [reflexivity|]. split; [reflexivity|].
    split; [exact Hsem|]. split; [exact Hn|]. split; [exact Hd|].
    split; [exact Hs|]. split; [|exact Hloss].
    unfold contribution, sub_loss. now rewrite Hout.
  - intros Hal. unfold forward. fold bf sl ol. rewrite Hg. cbn [bind].
    set (out := {| semantic_logits := sl; offset_logits := ol;
                   cluster_scores := None; clusters := None |}).
    destruct (offset_loss_returns E (all_labels m) out Hal) as (n & d & Hoff).
    destruct (compute_loss_without_scores E (set_outputs m sl out) out n d
                eq_refl eq_refl Hoff) as (m' & Hm' & _).
    exists m'. exact Hm'.
  - intros m0. reflexivity.
Qed.

(** C6.  In a pass in which clustering is active and both region-growing
    calls return no region, grouping and scoring return without an error,
    with an empty cluster list and no cluster scores; with per-point
    tensors of one length the whole pass returns, the score-loss attribute
    is untouched and the total is the weighted sum of the semantic and the
    two offset losses only. *)
Theorem C6_empty_cluster_list (E : Collaborators) (m : PointGroup)
  (epoch : Z) (vals : list Q) (predicted_labels : list nat)
  (shifted : list vec3) :
  let backbone_features := Backbone E (input m) in
  let sl := Semantic E backbone_features in
  let ol := Offset E backbone_features in
  let w := loss_weights (opt m) in
  clustering_active epoch (prepare_epoch (opt m)) = true ->
  Torch.max_dim1 sl = Ok (vals, predicted_labels) ->
  V3.add_rows (raw_pos m) ol = Ok shifted ->
  region_grow E (raw_pos m) predicted_labels (Data.batch (input m))
    (_stuff_classes m) (cluster_radius_search (opt m))
  ++ region_grow E shifted predicted_labels (Data.batch (input m))
       (_stuff_classes m) (cluster_radius_search (opt m)) = [] ->
  group_and_score E m epoch backbone_features sl ol = Ok (None, Some []) /\
  (aligned (all_labels m) ol ->
   exists m' out sem n d,
     forward E m epoch = Ok m' /\
     all_outputs m' = Some out /\
     clusters out = Some [] /\
     cluster_scores out = None /\
     semantic_loss m' = Some sem /\
     offset_norm_loss m' = Some n /\
     offset_dir_loss m' = Some d /\
     score_loss m' = score_loss m /\
     contribution m' K_score_loss = 0 /\
     loss m' = Some (w K_semantic * sem
                     + w K_offset_norm_loss * n
                     + w K_offset_dir_loss * d)).
Proof.
  intros bf sl ol w Hact Hmax Hadd Hempty.
  assert (Hg : group_and_score E m epoch bf sl ol = Ok (None, Some [])).
  { unfold group_and_score. rewrite Hact.
    rewrite (candidate_clusters_returns E m sl ol vals predicted_labels
               shifted Hmax Hadd), Hempty.
    reflexivity. }
  split; [exact Hg|]. intros Hal.
  set (out := {| semantic_logits := sl; offset_logits := ol;
                 cluster_scores := None; clusters := Some [] |}).
  destruct (offset_loss_returns E (all_labels m) out Hal) as (n & d & Hoff).
  destruct (compute_loss_without_scores E (set_outputs m sl out) out n d
              eq_refl eq_refl Hoff)
    as (m' & Hm' & Hloss & Hsem & Hn & Hd & Hs & Hout & Hopt).
  exists m', out. eexists. exists n, d.
  split. { unfold forward. fold bf sl ol. rewrite Hg. exact Hm'. }
  split; [exact Hout|]. split; [reflexivity|]. split; [reflexivity|].
  split; [exact Hsem|]. split; [exact Hn|]. split; [exact Hd|].
  split; [exact Hs|]. split; [|exact Hloss].
  unfold contribution, sub_loss. now rewrite Hout.
Qed.

(** C10 (amended).  Clustering is active exactly when [epoch] is -1 (the
    default of [forward]) or strictly greater than [prepare_epoch]; at
    [epoch = prepare_epoch] it is inactive unless that common value is -1. *)
Theorem C10_gate (epoch prepare : Z) :
  (clustering_active epoch prepare = true
   <-> (epoch = -1 \/ epoch > prepare)%Z) /\
  (epoch = prepare -> prepare <> (-1)%Z ->
   clustering_active epoch prepare = false) /\
  (forall (E : Collaborators) (m : PointGroup),
     forward_default E m = forward E m (-1)).
Proof.
  unfold clustering_active. split; [|split].
  - rewrite orb_true_iff, Z.eqb_eq, Z.gtb_gt. reflexivity.
  - intros -> Hne. apply orb_false_iff. split.
    + now apply Z.eqb_neq.
    + rewrite Z.gtb_ltb. apply Z.ltb_irrefl.
  - reflexivity.
Qed.

(** ** The offset losses (claims C7, C8) *)

Lemma select_agree {A : Type} (t1 : list A) :
  forall (t2 : list A) (mask : list bool),
    length t1 = length t2 ->
    (forall i, nth_error mask i = Some true ->
               nth_error t1 i = nth_error t2 i) ->
    Torch.select t1 mask = Torch.select t2 mask.
Proof.
  induction t1 as [|x t1 IH]; intros [|y t2] [|b mask] Hlen Hagree;
    simpl in *; try discriminate; try reflexivity.
  assert (Hrest : Torch.select t1 mask = Torch.select t2 mask).
  { apply IH; [congruence|]. intros i Hi. exact (Hagree (S i) Hi). }
  destruct b; [|exact Hrest].
  specialize (Hagree 0%nat eq_refl). simpl in Hagree.
  injection Hagree as ->. now rewrite Hrest.
Qed.

Lemma masked_select_agree {A : Type} (t1 t2 : list A) (mask : list bool) :
  length t1 = length t2 ->
  (forall i, nth_error mask i = Some true ->
             nth_error t1 i = nth_error t2 i) ->
  Torch.masked_select t1 mask = Torch.masked_select t2 mask.
Proof.
  intros Hlen Hagree. unfold Torch.masked_select.
  rewrite Hlen, (select_agree t1 t2 mask Hlen Hagree). reflexivity.
Qed.

Lemma select_none {A : Type} (t : list A) :
  forall mask, ~ In true mask -> Torch.select t mask = [].
Proof.
  induction t as [|x t IH]; intros [|b mask] Hno; simpl in *;
    try reflexivity.
  destruct b.
  - exfalso. apply Hno. now left.
  - apply IH. intro Hin. apply Hno. now right.
Qed.

Lemma sum_bool_none (mask : list bool) :
  ~ In true mask -> Torch.sum_bool mask = 0%nat.
Proof.
  intro Hno. unfold Torch.sum_bool. now apply count_occ_not_In.
Qed.

Lemma offset_denominator_pos (mask : list bool) :
  0 < offset_denominator mask.
Proof.
  unfold offset_denominator.
  assert (H : 0 <= inject_Z (Z.of_nat (Torch.sum_bool mask))).
  { change 0 with (inject_Z 0). rewrite <- Zle_Qle. lia. }
  assert (Heps : 0 < 1 # 1000000) by reflexivity.
  lra.
Qed.

(** C7.  Both offset losses read the predicted offsets and the vote
    targets only at the points whose instance mask is true: two passes with
    the same mask whose offsets and vote targets agree at every masked
    point return the same offset losses (or fail alike), whatever the
    values at the other points. *)
Theorem C7_offset_loss_masked_only (E : Collaborators)
  (labels1 labels2 : PointGrouplabels) (out1 out2 : PointGroupResults) :
  instance_mask labels1 = instance_mask labels2 ->
  length (offset_logits out1) = length (offset_logits out2) ->
  length (vote_label labels1) = length (vote_label labels2) ->
  (forall i, nth_error (instance_mask labels1) i = Some true ->
     nth_error (offset_logits out1) i = nth_error (offset_logits out2) i /\
     nth_error (vote_label labels1) i = nth_error (vote_label labels2) i) ->
  _offset_loss E labels1 out1 = _offset_loss E labels2 out2.
Proof.
  intros Hmask Hlo Hlv Hagree. unfold _offset_loss.
  rewrite <- Hmask.
  rewrite (masked_select_agree (offset_logits out1) (offset_logits out2)
             (instance_mask labels1) Hlo (fun i Hi => proj1 (Hagree i Hi))).
  rewrite (masked_select_agree (vote_label labels1) (vote_label labels2)
             (instance_mask labels1) Hlv (fun i Hi => proj2 (Hagree i Hi))).
  reflexivity.
Qed.

(** C8.  When no point has a true instance mask (and the per-point tensors
    have one length), [_offset_loss] returns; the offset-norm loss and the
    offset-direction loss are both the empty sum 0 divided by the guarded
    denominator [0 + 1e-6], which is positive, so both losses are 0. *)
Theorem C8_offset_loss_without_masked_points (E : Collaborators)
  (data_labels : PointGrouplabels) (out : PointGroupResults) :
  aligned data_labels (offset_logits out) ->
  ~ In true (instance_mask data_labels) ->
  exists n d,
    _offset_loss E data_labels out
    = Ok [(K_offset_norm_loss, n); (K_offset_dir_loss, d)] /\
    n = 0 / offset_denominator (instance_mask data_labels) /\
    d = 0 / offset_denominator (instance_mask data_labels) /\
    offset_denominator (instance_mask data_labels) == 1 # 1000000 /\
    0 < offset_denominator (instance_mask data_labels) /\
    n == 0 /\ d == 0.
Proof.
  intros [H1 H2] Hno. unfold _offset_loss, Torch.masked_select.
  rewrite H1, Nat.eqb_refl. cbn [bind].
  rewrite <- H1, H2, Nat.eqb_refl. cbn [bind].
  rewrite !select_none by assumption.
  eexists. eexists. split; [reflexivity|].
  split; [reflexivity|]. split; [reflexivity|].
  split. { unfold offset_denominator. now rewrite sum_bool_none. }
  split; [apply offset_denominator_pos|].
  split; unfold Qdiv; apply Qmult_0_l.
Qed.

(** ** The total loss (claim C9) *)

Lemma contribution_value (m : PointGroup) (k : loss_key) (l : Q) :
  sub_loss m k = Some l -> contribution m k = loss_weights (opt m) k * l.
Proof. intro H. unfold contribution. now rewrite H. Qed.

Lemma contribution_absent (m : PointGroup) (k : loss_key) :
  sub_loss m k = None -> contribution m k = 0.
Proof. intro H. unfold contribution. now rewrite H. Qed.

Lemma scale_weight_same (o : Options) (k : loss_key) (c : Q) :
  loss_weights (scale_weight o k c) k = c * loss_weights o k.
Proof. destruct k; reflexivity. Qed.

Lemma scale_weight_other (o : Options) (k k' : loss_key) (c : Q) :
  k' <> k -> loss_weights (scale_weight o k c) k' = loss_weights o k'.
Proof. destruct k, k'; intro H; try reflexivity; now elim H. Qed.

(** C9.  A returning [_compute_loss] stores a total that is the weighted
    sum of the semantic loss, the two offset losses and, only in a pass
    with cluster scores, the score loss.  Multiplying one entry of
    [loss_weights] by [c] leaves every sub-loss as it was, multiplies that
    entry's term of the total by [c], leaves the other terms as they were,
    and leaves the total minus that term unchanged. *)
Theorem C9_total_loss_weighted_sum (E : Collaborators) (m m1 : PointGroup)
  (out : PointGroupResults) :
  let w := loss_weights (opt m) in
  all_outputs m = Some out ->
  _compute_loss E m = Ok m1 ->
  (exists sem n d total,
     semantic_loss m1 = Some sem /\
     offset_norm_loss m1 = Some n /\
     offset_dir_loss m1 = Some d /\
     loss m1 = Some total /\
     match cluster_scores out with
     | Some _ =>
         exists s,
           score_loss m1 = Some s /\
           total == w K_semantic * sem + w K_offset_norm_loss * n
                    + w K_offset_dir_loss * d + w K_score_loss * s
     | None =>
         total == w K_semantic * sem + w K_offset_norm_loss * n
                  + w K_offset_dir_loss * d
     end) /\
  (forall (k : loss_key) (c : Q),
     exists m2 t1 t2,
       _compute_loss E (with_opt m (scale_weight (opt m) k c)) = Ok m2 /\
       (forall k', sub_loss m2 k' = sub_loss m1 k') /\
       contribution m2 k == c * contribution m1 k /\
       (forall k', k' <> k -> contribution m2 k' == contribution m1 k') /\
       loss m1 = Some t1 /\
       loss m2 = Some t2 /\
       t1 == contribution m1 K_semantic + contribution m1 K_offset_norm_loss
             + contribution m1 K_offset_dir_loss
             + contribution m1 K_score_loss /\
       t2 - contribution m2 k == t1 - contribution m1 k).
Proof.
  intros w Hout Hrun.
  destruct (compute_loss_inv E m m1 out Hout Hrun)
    as (n & d & Hoff & Hout1 & Hopt1 & Hsem1 & Hn1 & Hd1 & Hcase).
  split.
  - eexists. exists n, d.
    destruct (cluster_scores out) as [scores|].
    + destruct Hcase as (cl & inst & ious & ixs & s & _ & _ & _ & _ & Hs & Hl).
      eexists. repeat (split; [eassumption|]).
      exists s. split; [exact Hs|]. fold w. ring.
    + destruct Hcase as [_ Hl].
      eexists. repeat (split; [eassumption|]). reflexivity.
  - intros k c.
    set (ms := with_opt m (scale_weight (opt m) k c)).
    assert (Houts : all_outputs ms = Some out) by exact Hout.
    assert (Hoffs : _offset_loss E (all_labels ms) out
                    = Ok [(K_offset_norm_loss, n); (K_offset_dir_loss, d)])
      by exact Hoff.
    destruct (cluster_scores out) as [scores|] eqn:Hsc.
    + destruct Hcase
        as (cl & inst & ious & ixs & s & Hcl & Hinst & Hmax & Hsdef & Hs & Hl).
      destruct (compute_loss_with_scores E ms out scores ious ixs cl inst n d
                  Houts Hsc Hcl Hinst Hmax Hoffs)
        as (m2 & Hm2 & Hl2 & Hsem2 & Hn2 & Hd2 & Hs2 & Hout2 & Hopt2).
      change (min_iou_threshold (opt ms)) with (min_iou_threshold (opt m))
        in *.
      change (max_iou_threshold (opt ms)) with (max_iou_threshold (opt m))
        in *.
      rewrite <- Hsdef in *.
      assert (Hsub1 : forall k', sub_loss m1 k' =
                match k' with
                | K_semantic => Some (nll_loss E (semantic_logits out)
                                        (labels m) (IGNORE_LABEL E))
                | K_score_loss => Some s
                | K_offset_norm_loss => Some n
                | K_offset_dir_loss => Some d
                end).
      { intros []; unfold sub_loss; rewrite ?Hout1, ?Hsc; assumption. }
      assert (Hsub2 : forall k', sub_loss m2 k' = sub_loss m1 k').
      { intro k'. rewrite Hsub1.
        destruct k'; unfold sub_loss; rewrite ?Hout2, ?Hsc; assumption. }
      exists m2. eexists. eexists.
      split; [exact Hm2|]. split; [exact Hsub2|].
      split; [|split; [|split; [exact Hl|split; [exact Hl2|split]]]].
      * unfold contribution. rewrite Hsub2, Hopt2, Hopt1.
        destruct (sub_loss m1 k) as [x|].
        -- change (opt ms) with (scale_weight (opt m) k c).
           rewrite scale_weight_same. ring.
        -- ring.
      * intros k' Hne. unfold contribution. rewrite Hsub2, Hopt2, Hopt1.
        change (opt ms) with (scale_weight (opt m) k c).
        rewrite (scale_weight_other _ _ _ _ Hne). reflexivity.
      * unfold contribution. rewrite !Hsub1, Hopt1. fold w. ring.
      * unfold contribution. rewrite Hsub2, !Hsub1, Hopt2, Hopt1.
        change (opt ms) with (scale_weight (opt m) k c).
        change (labels ms) with (labels m).
        destruct k; cbn [loss_weights scale_weight loss_key_eqb]; ring.
    + destruct Hcase as [Hs Hl].
      destruct (compute_loss_without_scores E ms out n d Houts Hsc Hoffs)
        as (m2 & Hm2 & Hl2 & Hsem2 & Hn2 & Hd2 & Hs2 & Hout2 & Hopt2).
      assert (Hsub1 : forall k', sub_loss m1 k' =
                match k' with
                | K_semantic => Some (nll_loss E (semantic_logits out)
                                        (labels m) (IGNORE_LABEL E))
                | K_score_loss => None
                | K_offset_norm_loss => Some n
                | K_offset_dir_loss => Some d
                end).
      { intros []; unfold sub_loss; rewrite ?Hout1, ?Hsc;
          first [assumption|reflexivity]. }
      assert (Hsub2 : forall k', sub_loss m2 k' = sub_loss m1 k').
      { intro k'. rewrite Hsub1.
        destruct k'; unfold sub_loss; rewrite ?Hout2, ?Hsc;
          first [assumption|reflexivity]. }
      exists m2. eexists. eexists.
      split; [exact Hm2|]. split; [exact Hsub2|].
      split; [|split; [|split; [exact Hl|split; [exact Hl2|split]]]].
      * unfold contribution. rewrite Hsub2, Hopt2, Hopt1.
        destruct (sub_loss m1 k) as [x|].
        -- change (opt ms) with (scale_weight (opt m) k c).
           rewrite scale_weight_same. ring.
        -- ring.
      * intros k' Hne. unfold contribution. rewrite Hsub2, Hopt2, Hopt1.
        change (opt ms) with (scale_weight (opt m) k c).
        rewrite (scale_weight_other _ _ _ _ Hne). reflexivity.
      * unfold contribution. rewrite !Hsub1, Hopt1. fold w. ring.
      * unfold contribution. rewrite Hsub2, !Hsub1, Hopt2, Hopt1.
        change (opt ms) with (scale_weight (opt m) k c).
        change (labels ms) with (labels m).
        destruct k; cbn [loss_weights scale_weight loss_key_eqb]; ring.
Qed.

(** ** The cluster batcher *)

Lemma index_select_gathers {A : Type} (t : list A) (idx : list nat) :
  forall r, Torch.index_select t idx = Ok r <-> gathers t idx r.
Proof.
  unfold gathers. induction idx as [|i idx IH]; intro r; simpl.
  - split.
    + intro H. injection H as <-. constructor.
    + intro H. inversion H. reflexivity.
  - destruct (nth_error t i) as [v|] eqn:Hv.
    + destruct (Torch.index_select t idx) as [rest|e]; cbn [bind].
      * split.
        -- intro H. injection H as <-. constructor; [exact Hv|].
           now apply IH.
        -- intro H. inversion H as [|? w ? r' Hw Hr]; subst.
           apply IH in Hr. injection Hr as <-. congruence.
      * split; [discriminate|].
        intro H. inversion H as [|? w ? r' Hw Hr]; subst.
        apply IH in Hr. discriminate.
    + split; [discriminate|].
      intro H. inversion H; subst. congruence.
Qed.

Lemma index_select_in_range {A : Type} (t : list A) (idx : list nat) :
  (forallb (fun i => Nat.ltb i (length t)) idx = true ->
   exists r, Torch.index_select t idx = Ok r) /\
  (forallb (fun i => Nat.ltb i (length t)) idx = false ->
   Torch.index_select t idx = Raise IndexError).
Proof.
  induction idx as [|i idx [IHok IHbad]]; simpl.
  - split; [now exists []|discriminate].
  - destruct (Nat.ltb i (length t)) eqn:Hi; simpl.
    + apply Nat.ltb_lt in Hi.
      destruct (nth_error t i) as [v|] eqn:Hv;
        [|apply nth_error_None in Hv; lia].
      split.
      * intro H. destruct (IHok H) as [r ->]. now exists (v :: r).
      * intro H. now rewrite (IHbad H).
    + apply Nat.ltb_ge in Hi. apply nth_error_None in Hi. rewrite Hi.
      split; [discriminate|reflexivity].
Qed.

Lemma gathers_length {A : Type} (t : list A) (idx : list nat) (r : list A) :
  gathers t idx r -> length r = length idx.
Proof. intro H. symmetry. exact (Forall2_length H). Qed.

Lemma cluster_stamps_total (all : list (list nat)) :
  forall i, length (concat (cluster_stamps i all)) = total_size all.
Proof.
  unfold total_size.
  induction all as [|c rest IH]; intro i; simpl; [reflexivity|].
  rewrite !length_app, repeat_length, IH. reflexivity.
Qed.

Lemma gathered_total {A : Type} (t : list A) (all : list (list nat)) :
  forall x, Forall2 (gathers t) all x ->
            length (concat x) = total_size all.
Proof.
  unfold total_size. intros x H.
  induction H as [|c r all x Hc _ IH]; simpl; [reflexivity|].
  rewrite !length_app, IH, (gathers_length _ _ _ Hc). reflexivity.
Qed.

(** The batching loop returns exactly on in-range clusters. *)
Lemma batch_clusters_cases (backbone_features : list (list Q))
  (input_pos : list vec3) (all_clusters : list (list nat)) (i : nat) :
  (in_range (length backbone_features) all_clusters
   && in_range (length input_pos) all_clusters = true ->
   exists x pos,
     batch_clusters backbone_features input_pos i all_clusters
     = Ok (x, pos, cluster_stamps i all_clusters)) /\
  (in_range (length backbone_features) all_clusters
   && in_range (length input_pos) all_clusters = false ->
   batch_clusters backbone_features input_pos i all_clusters
   = Raise IndexError).
Proof.
  revert i. unfold in_range.
  induction all_clusters as [|c rest IH]; intro i; simpl.
  - split; [now exists [], []|discriminate].
  - destruct (index_select_in_range backbone_features c) as [Fok Fbad].
    destruct (index_select_in_range input_pos c) as [Pok Pbad].
    destruct (IH (S i)) as [IHok IHbad].
    destruct (forallb (fun j => Nat.ltb j (length backbone_features)) c)
      eqn:Hf; simpl.
    + destruct (Fok eq_refl) as [xi ->]. cbn [bind].
      destruct (forallb (fun j => Nat.ltb j (length input_pos)) c)
        eqn:Hp; simpl.
      * destruct (Pok eq_refl) as [pi ->]. cbn [bind]. split.
        -- intro H. destruct (IHok H) as (x & pos & ->). cbn [bind].
           now exists (xi :: x), (pi :: pos).
        -- intro H. now rewrite (IHbad H).
      * rewrite (Pbad eq_refl). split; [|reflexivity].
        rewrite andb_false_r. discriminate.
    + rewrite (Fbad eq_refl). split; [discriminate|reflexivity].
Qed.

(** The blocks the batching loop returns. *)
Lemma batch_clusters_blocks (backbone_features : list (list Q))
  (input_pos : list vec3) (all_clusters : list (list nat)) :
  forall i x pos batch,
    batch_clusters backbone_features input_pos i all_clusters
    = Ok (x, pos, batch) ->
    Forall2 (gathers backbone_features) all_clusters x /\
    Forall2 (gathers input_pos) all_clusters pos /\
    batch = cluster_stamps i all_clusters.
Proof.
  induction all_clusters as [|c rest IH];
    intros i x pos batch H; simpl in H.
  - injection H as <- <- <-. repeat split; constructor.
  - destruct (Torch.index_select backbone_features c) as [xi|e] eqn:Hx;
      [|discriminate]. cbn [bind] in H.
    destruct (Torch.index_select input_pos c) as [pi|e] eqn:Hp;
      [|discriminate]. cbn [bind] in H.
    destruct (batch_clusters backbone_features input_pos (S i) rest)
      as [[[x' pos'] batch']|e] eqn:Hr; [|discriminate].
    cbn [bind] in H. injection H as <- <- <-.
    destruct (IH _ _ _ _ Hr) as (Hx' & Hp' & ->).
    apply index_select_gathers in Hx, Hp.
    repeat split; try (constructor; assumption).
Qed.

(** X1.  The batching loop of [forward] returns exactly when every index
    of every cluster is a row of both the feature tensor and the position
    tensor, and otherwise raises an index error.  When it returns, its
    k-th feature block holds the feature rows of the k-th cluster's
    members in the cluster's order, its k-th position block their
    positions, and its k-th batch block the rank k once per member;
    concatenated, the three columns have one row per cluster member. *)
Theorem batch_clusters_spec (backbone_features : list (list Q))
  (input_pos : list vec3) (all_clusters : list (list nat)) :
  let ok :=
    in_range (length backbone_features) all_clusters
    && in_range (length input_pos) all_clusters in
  (ok = false ->
   batch_clusters backbone_features input_pos 0 all_clusters
   = Raise IndexError) /\
  (ok = true ->
   exists x pos,
     batch_clusters backbone_features input_pos 0 all_clusters
     = Ok (x, pos, cluster_stamps 0 all_clusters)) /\
  (forall x pos batch,
     batch_clusters backbone_features input_pos 0 all_clusters
     = Ok (x, pos, batch) ->
     ok = true /\
     Forall2 (gathers backbone_features) all_clusters x /\
     Forall2 (gathers input_pos) all_clusters pos /\
     batch = cluster_stamps 0 all_clusters /\
     length (concat x) = total_size all_clusters /\
     length (concat pos) = total_size all_clusters /\
     length (concat batch) = total_size all_clusters).
Proof.
  intro ok.
  destruct (batch_clusters_cases backbone_features input_pos all_clusters 0)
    as [Hok Hbad].
  fold ok in Hok, Hbad.
  split; [exact Hbad|]. split; [exact Hok|].
  intros x pos batch H.
  destruct (batch_clusters_blocks _ _ _ _ _ _ _ H) as (Hx & Hp & ->).
  split.
  - destruct ok; [reflexivity|]. rewrite (Hbad eq_refl) in H. discriminate.
  - split; [exact Hx|]. split; [exact Hp|]. split; [reflexivity|].
    split; [exact (gathered_total _ _ _ Hx)|].
    split; [exact (gathered_total _ _ _ Hp)|].
    apply cluster_stamps_total.
Qed.

Section Scoring.

Variable E : Collaborators.

Lemma score_clusters_scores (m : PointGroup)
  (backbone_features : list (list Q)) (all_clusters : list (list nat)) :
  all_clusters <> [] ->
  in_range (length backbone_features) all_clusters
  && in_range (length (Data.pos (input m))) all_clusters = true ->
  exists x pos,
    batch_clusters backbone_features (Data.pos (input m)) 0 all_clusters
    = Ok (x, pos, cluster_stamps 0 all_clusters) /\
    score_clusters E m backbone_features all_clusters
    = Ok (Some (ScorerHead E
                  (Scorer E
                     (Data.Make (concat x) (concat pos)
                        (concat (cluster_stamps 0 all_clusters)) None)))).
Proof.
  intros Hall Htrue.
  destruct (batch_clusters_cases backbone_features (Data.pos (input m))
              all_clusters 0) as [Hok _].
  destruct (Hok Htrue) as (x & pos & Hb).
  exists x, pos. split; [exact Hb|].
  destruct (batch_clusters_blocks _ _ _ _ _ _ _ Hb) as (Hx & Hp & _).
  unfold score_clusters.
  destruct all_clusters as [|c rest]; [now elim Hall|].
  cbn [length Nat.eqb negb]. rewrite Hb. cbn [bind].
  inversion Hx; subst. inversion Hp; subst. reflexivity.
Qed.

Lemma score_clusters_out_of_range (m : PointGroup)
  (backbone_features : list (list Q)) (all_clusters : list (list nat)) :
  all_clusters <> [] ->
  in_range (length backbone_features) all_clusters
  && in_range (length (Data.pos (input m))) all_clusters = false ->
  score_clusters E m backbone_features all_clusters = Raise IndexError.
Proof.
  intros Hall Hfalse.
  destruct (batch_clusters_cases backbone_features (Data.pos (input m))
              all_clusters 0) as [_ Hbad].
  unfold score_clusters.
  destruct all_clusters as [|c rest]; [now elim Hall|].
  cbn [length Nat.eqb negb]. now rewrite (Hbad Hfalse).
Qed.

Lemma score_clusters_raise (m : PointGroup)
  (backbone_features : list (list Q)) (all_clusters : list (list nat))
  (e : exn) :
  score_clusters E m backbone_features all_clusters = Raise e ->
  e = IndexError.
Proof.
  intro He.
  destruct all_clusters as [|c rest] eqn:Hall; [discriminate|].
  destruct (in_range (length backbone_features) (c :: rest)
            && in_range (length (Data.pos (input m))) (c :: rest)) eqn:Hk.
  - destruct (score_clusters_scores m backbone_features (c :: rest)
                ltac:(discriminate) Hk) as (x & pos & _ & Hs).
    congruence.
  - rewrite (score_clusters_out_of_range m backbone_features (c :: rest)
               ltac:(discriminate) Hk) in He.
    congruence.
Qed.

End Scoring.

(** X2.  Scoring is skipped for an empty cluster list; for a non-empty
    list whose indices are all in range the scorer receives one batch
    holding the gathered features, the gathered positions and the stamps,
    concatenated over the clusters; otherwise scoring raises an index
    error.  [torch.cat] never meets an empty list: an index error is the
    only error of this stage. *)
Theorem score_clusters_behaviour (E : Collaborators) (m : PointGroup)
  (backbone_features : list (list Q)) (all_clusters : list (list nat)) :
  let ok :=
    in_range (length backbone_features) all_clusters
    && in_range (length (Data.pos (input m))) all_clusters in
  (all_clusters = [] ->
   score_clusters E m backbone_features all_clusters = Ok None) /\
  (all_clusters <> [] -> ok = true ->
   exists x pos,
     batch_clusters backbone_features (Data.pos (input m)) 0 all_clusters
     = Ok (x, pos, cluster_stamps 0 all_clusters) /\
     score_clusters E m backbone_features all_clusters
     = Ok (Some (ScorerHead E
                   (Scorer E
                      (Data.Make (concat x) (concat pos)
                         (concat (cluster_stamps 0 all_clusters)) None))))) /\
  (all_clusters <> [] -> ok = false ->
   score_clusters E m backbone_features all_clusters = Raise IndexError) /\
  (forall e,
     score_clusters E m backbone_features all_clusters = Raise e ->
     e = IndexError).
Proof.
  intro ok. split; [|split; [|split]].
  - intros ->. reflexivity.
  - intros Hne Hok. now apply score_clusters_scores.
  - intros Hne Hbad. now apply score_clusters_out_of_range.
  - intros e He. exact (score_clusters_raise E m _ _ e He).
Qed.

(** ** Errors of a pass *)

Lemma max_dim1_raise (t : list (list Q)) (e : exn) :
  Torch.max_dim1 t = Raise e -> e = IndexError.
Proof.
  induction t as [|row t IH]; simpl; [discriminate|].
  destruct row as [|x row]; simpl.
  - intro H. congruence.
  - destruct (Torch.max_row_from x 0 1 row) as [v i].
    destruct (Torch.max_dim1 t) as [[vs ixs]|e']; cbn [bind].
    + discriminate.
    + intro H. injection H as <-. now apply IH.
Qed.

Lemma add_rows_raise (a b : list vec3) (e : exn) :
  V3.add_rows a b = Raise e ->
  e = RuntimeError /\ length a <> length b /\
  length a <> 1%nat /\ length b <> 1%nat.
Proof.
  unfold V3.add_rows.
  destruct a as [|u [|u' a]]; destruct b as [|v [|v' b]];
    try discriminate; simpl;
    try (intro H; injection H as <-; repeat split; discriminate).
  destruct (Nat.eqb (length a) (length b)) eqn:Hl; [discriminate|].
  apply Nat.eqb_neq in Hl. intro H. injection H as <-.
  repeat split; try discriminate. intro Hc. injection Hc as Hc. contradiction.
Qed.

Section PassErrors.

Variable E : Collaborators.

Lemma offset_loss_raise (data_labels : PointGrouplabels)
  (out : PointGroupResults) (e : exn) :
  _offset_loss E data_labels out = Raise e -> e = IndexError.
Proof.
  unfold _offset_loss, Torch.masked_select.
  destruct (Nat.eqb _ (length (offset_logits out))); cbn [bind];
    [|intro H; congruence].
  destruct (Nat.eqb _ (length (vote_label data_labels))); cbn [bind];
    [discriminate|intro H; congruence].
Qed.

Lemma compute_loss_raise (m : PointGroup) (e : exn) :
  _compute_loss E m = Raise e ->
  e <> AssertionError /\
  (e = AttributeError ->
   all_outputs m = None \/
   exists out scores,
     all_outputs m = Some out /\ cluster_scores out = Some scores /\
     Data.instance_labels (input m) = None) /\
  (e = RuntimeError ->
   exists out scores,
     all_outputs m = Some out /\ cluster_scores out = Some scores /\
     clusters out = None).
Proof.
  intro Hrun.
  destruct (all_outputs m) as [out|] eqn:Hout.
  2:{ unfold _compute_loss in Hrun. rewrite Hout in Hrun.
      injection Hrun as <-.
      split; [discriminate|]. split; [now left|discriminate]. }
  destruct (_offset_loss E (all_labels m) out) as [items|e0] eqn:Hoff.
  2:{ unfold _compute_loss in Hrun. rewrite Hout in Hrun.
      cbn [all_labels set_loss set_semantic_loss] in Hrun.
      rewrite Hoff in Hrun. cbn [bind] in Hrun. injection Hrun as <-.
      rewrite (offset_loss_raise _ _ _ Hoff).
      repeat split; discriminate. }
  destruct (offset_loss_items E _ _ _ Hoff) as (n & d & ->).
  destruct (cluster_scores out) as [scores|] eqn:Hsc.
  2:{ destruct (compute_loss_without_scores E m out n d Hout Hsc Hoff)
        as (m2 & Hm2 & _). congruence. }
  destruct (Data.instance_labels (input m)) as [inst|] eqn:Hinst.
  2:{ unfold _compute_loss in Hrun. rewrite Hout in Hrun.
      cbn [all_labels set_loss set_semantic_loss input opt] in Hrun.
      rewrite Hoff in Hrun. cbn [bind] in Hrun.
      rewrite Hsc, Hinst in Hrun. cbn [bind] in Hrun. injection Hrun as <-.
      split; [discriminate|]. split; [|discriminate].
      intros _. right. now exists out, scores. }
  destruct (clusters out) as [cl|] eqn:Hcl.
  2:{ unfold _compute_loss in Hrun. rewrite Hout in Hrun.
      cbn [all_labels set_loss set_semantic_loss input opt] in Hrun.
      rewrite Hoff in Hrun. cbn [bind] in Hrun.
      rewrite Hsc, Hinst, Hcl in Hrun. cbn [bind] in Hrun.
      injection Hrun as <-.
      split; [discriminate|]. split; [discriminate|].
      intros _. now exists out, scores. }
  destruct (Torch.max_dim1 (instance_iou E cl inst (Data.batch (input m))))
    as [[ious ixs]|e0] eqn:Hmax.
  2:{ unfold _compute_loss in Hrun. rewrite Hout in Hrun.
      cbn [all_labels set_loss set_semantic_loss input opt] in Hrun.
      rewrite Hoff in Hrun. cbn [bind] in Hrun.
      rewrite Hsc, Hinst, Hcl in Hrun. unfold Torch.to_device in Hrun.
      rewrite Hmax in Hrun. cbn [bind] in Hrun. injection Hrun as <-.
      rewrite (max_dim1_raise _ _ Hmax). repeat split; discriminate. }
  destruct (compute_loss_with_scores E m out scores ious ixs cl inst n d
              Hout Hsc Hcl Hinst Hmax Hoff) as (m2 & Hm2 & _).
  congruence.
Qed.

Lemma group_and_score_shape (m : PointGroup) (epoch : Z)
  (bf sl : list (list Q)) (ol : list vec3)
  (sc : option (list Q)) (cls : option (list (list nat))) :
  group_and_score E m epoch bf sl ol = Ok (sc, cls) ->
  (clustering_active epoch (prepare_epoch (opt m)) = false ->
   sc = None /\ cls = None) /\
  (clustering_active epoch (prepare_epoch (opt m)) = true ->
   exists cl, cls = Some cl /\ (sc = None <-> cl = [])).
Proof.
  intro Hg. split; intro Hact.
  - rewrite (group_and_score_inactive E m epoch bf sl ol Hact) in Hg.
    injection Hg as <- <-. now split.
  - destruct (group_and_score_active E m epoch bf sl ol sc cls Hact Hg)
      as (all & _ & Hs & ->).
    exists all. split; [reflexivity|].
    destruct (score_clusters_inv E m bf all sc Hs) as [Hempty Hfull].
    split; [|exact Hempty].
    intros ->. destruct all as [|c rest]; [reflexivity|].
    destruct (Hfull ltac:(discriminate)) as [scores Hc]. discriminate.
Qed.

Lemma group_and_score_raise (m : PointGroup) (epoch : Z)
  (bf sl : list (list Q)) (ol : list vec3) (e : exn) :
  group_and_score E m epoch bf sl ol = Raise e ->
  clustering_active epoch (prepare_epoch (opt m)) = true /\
  (e = IndexError \/
   e = RuntimeError /\ V3.add_rows (raw_pos m) ol = Raise RuntimeError).
Proof.
  unfold group_and_score.
  destruct (clustering_active epoch (prepare_epoch (opt m)));
    [|discriminate].
  intro H. split; [reflexivity|].
  destruct (candidate_clusters E m sl ol) as [all|e0] eqn:Hc.
  - cbn [bind] in H.
    destruct (score_clusters E m bf all) as [sc|e1] eqn:Hs;
      [discriminate|].
    cbn [bind] in H. injection H as <-. left.
    exact (score_clusters_raise E m bf all e1 Hs).
  - cbn [bind] in H. injection H as <-.
    unfold candidate_clusters in Hc.
    destruct (Torch.max_dim1 sl) as [[vals pl]|e1] eqn:Hmax.
    + cbn [bind] in Hc. unfold Torch.to_device in Hc.
      destruct (V3.add_rows (raw_pos m) ol) as [shifted|e2] eqn:Hadd;
        [discriminate|].
      cbn [bind] in Hc. injection Hc as <-.
      destruct (add_rows_raise _ _ _ Hadd) as [-> _]. right. now split.
    + cbn [bind] in Hc. injection Hc as <-. left.
      exact (max_dim1_raise _ _ Hmax).
Qed.

End PassErrors.

(** X3.  The outputs of a returning pass: the two heads' tensors, and a
    cluster list and cluster scores that are both absent when clustering
    is inactive; when it is active the cluster list is present and the
    scores are absent exactly when the list is empty. *)
Theorem forward_outputs_shape (E : Collaborators) (m m' : PointGroup)
  (epoch : Z) :
  forward E m epoch = Ok m' ->
  exists out,
    all_outputs m' = Some out /\
    semantic_logits out = Semantic E (Backbone E (input m)) /\
    offset_logits out = Offset E (Backbone E (input m)) /\
    (clustering_active epoch (prepare_epoch (opt m)) = false ->
     cluster_scores out = None /\ clusters out = None) /\
    (clustering_active epoch (prepare_epoch (opt m)) = true ->
     exists cl,
       clusters out = Some cl /\ (cluster_scores out = None <-> cl = [])).
Proof.
  intro Hrun.
  destruct (forward_inv E m m' epoch Hrun) as (sc & cls & Hg & Hc).
  match type of Hc with
  | _compute_loss _ ?mm = _ =>
      destruct (compute_loss_inv E mm m' _ eq_refl Hc)
        as (n & d & _ & Hout & _)
  end.
  eexists. split; [exact Hout|]. split; [reflexivity|].
  split; [reflexivity|].
  exact (group_and_score_shape E m epoch _ _ _ sc cls Hg).
Qed.


(** ** More on the score target *)

(** X5.  With [min_iou < max_iou] the target tensor has one entry per
    cluster and every entry lies in [0, 1], as a target of the binary
    cross-entropy must. *)
Theorem shat_in_unit_interval (min_iou max_iou : Q) (ious : list Q) :
  min_iou < max_iou ->
  exists shat,
    ScoreTarget.shat min_iou max_iou ious = Ok shat /\
    length shat = length ious /\
    Forall (fun t => 0 <= t <= 1) shat.
Proof.
  intro Hlh. rewrite shat_entries. eexists. split; [reflexivity|].
  split; [apply length_map|].
  apply Forall_map, Forall_forall. intros x _.
  now apply entry_target_range.
Qed.

(** X6.  The target computation does not check the order of the
    thresholds.  With [max_iou < min_iou] it still returns, the middle
    bucket is empty and the target is a hard threshold at [max_iou]: 1 for
    a cluster whose IoU is above [max_iou], 0 for every other cluster. *)
Theorem shat_reversed_thresholds (min_iou max_iou : Q) (ious : list Q) :
  max_iou < min_iou ->
  exists shat,
    ScoreTarget.shat min_iou max_iou ious = Ok shat /\
    Torch.sum_bool (ScoreTarget.middle_mask min_iou max_iou ious) = 0%nat /\
    forall i iou, nth_error ious i = Some iou ->
      (max_iou < iou -> nth_error shat i = Some 1) /\
      (iou <= max_iou -> nth_error shat i = Some 0).
Proof.
  intro Hrev. rewrite shat_entries. eexists. split; [reflexivity|]. split.
  - induction ious as [|x ious IH]; [reflexivity|].
    rewrite middle_mask_cons. unfold Torch.sum_bool in *.
    destruct (Torch.Qlt_bool x min_iou) eqn:Hl; simpl; [exact IH|].
    destruct (Torch.Qlt_bool max_iou x) eqn:Hh; simpl; [exact IH|].
    apply Qlt_bool_false in Hl, Hh. lra.
  - intros i iou Hi. rewrite nth_error_map, Hi. cbn [option_map]. split.
    + intro Hhigh. now rewrite entry_target_high.
    + intro Hlow. unfold entry_target.
      assert (Hl : Torch.Qlt_bool iou min_iou = true)
        by (apply Qlt_bool_true; lra).
      assert (Hh : Torch.Qlt_bool max_iou iou = false)
        by now apply Qlt_bool_false.
      now rewrite Hl, Hh.
Qed.

(** ** More on the offset losses *)

Lemma select_length {A : Type} (t : list A) :
  forall mask, length mask = length t ->
               length (Torch.select t mask) = Torch.sum_bool mask.
Proof.
  unfold Torch.sum_bool.
  induction t as [|x t IH]; intros [|b mask] Hlen; simpl in *;
    try discriminate; try reflexivity.
  injection Hlen as Hlen. destruct b; simpl; rewrite IH by assumption.
  - destruct (bool_dec true true); [reflexivity|contradiction].
  - destruct (bool_dec false true); [discriminate|reflexivity].
Qed.

Lemma sum_from (t : list Q) :
  forall acc, fold_left Qplus t acc == acc + Torch.sum t.
Proof.
  unfold Torch.sum. induction t as [|x t IH]; intro acc; simpl.
  - ring.
  - rewrite (IH (acc + x)), (IH (0 + x)). ring.
Qed.

Lemma sum_cons (x : Q) (t : list Q) : Torch.sum (x :: t) == x + Torch.sum t.
Proof. unfold Torch.sum at 1. simpl. rewrite sum_from. ring. Qed.

Lemma sum_between (lo hi : Q) (t : list Q) :
  Forall (fun x => lo <= x <= hi) t ->
  inject_Z (Z.of_nat (length t)) * lo <= Torch.sum t
  <= inject_Z (Z.of_nat (length t)) * hi.
Proof.
  induction 1 as [|x t Hx _ IH].
  - unfold Torch.sum. cbn [fold_left length Z.of_nat].
    change (inject_Z 0) with 0. lra.
  - rewrite sum_cons. cbn [length]. rewrite Nat2Z.inj_succ.
    unfold Z.succ. rewrite inject_Z_plus.
    change (inject_Z 1) with 1. nra.
Qed.

Lemma v3_sum_value (a : vec3) : V3.sum a == vx a + vy a + vz a.
Proof. unfold V3.sum, Torch.sum. simpl. ring. Qed.

Lemma l1_row (p g : vec3) :
  V3.sum (V3.abs (V3.sub p g)) == l1_distance p g.
Proof. rewrite v3_sum_value. reflexivity. Qed.

Lemma l1_distance_nonneg (p g : vec3) : 0 <= l1_distance p g.
Proof.
  unfold l1_distance.
  pose proof (Qabs_nonneg (vx p - vx g)).
  pose proof (Qabs_nonneg (vy p - vy g)).
  pose proof (Qabs_nonneg (vz p - vz g)). lra.
Qed.

Lemma l1_distance_same (p : vec3) : l1_distance p p == 0.
Proof.
  unfold l1_distance.
  assert (H : forall x : Q, Qabs (x - x) == 0).
  { intro x. rewrite (Qabs_wd (x - x) 0) by ring. reflexivity. }
  rewrite !H. ring.
Qed.

(** X7.  [_offset_loss] returns exactly when the instance mask has one
    entry per row of the predicted offsets and of the vote targets; it
    then returns the norm loss followed by the direction loss, and
    otherwise raises an index error. *)
Theorem offset_loss_returns_iff_aligned (E : Collaborators)
  (data_labels : PointGrouplabels) (out : PointGroupResults) :
  (aligned data_labels (offset_logits out) ->
   exists n d,
     _offset_loss E data_labels out
     = Ok [(K_offset_norm_loss, n); (K_offset_dir_loss, d)]) /\
  (~ aligned data_labels (offset_logits out) ->
   _offset_loss E data_labels out = Raise IndexError).
Proof.
  split; [apply offset_loss_returns|].
  intro Hna. unfold _offset_loss, Torch.masked_select.
  destruct (Nat.eqb (length (instance_mask data_labels))
              (length (offset_logits out))) eqn:H1; [|reflexivity].
  cbn [bind].
  destruct (Nat.eqb (length (instance_mask data_labels))
              (length (vote_label data_labels))) eqn:H2; [|reflexivity].
  exfalso. apply Hna. apply Nat.eqb_eq in H1, H2. now split.
Qed.

(** X8.  The offset-norm loss is the sum of the L1 distances between the
    predicted offset and the vote target of the masked points, divided by
    the number of masked points plus 1e-6, and exactly that many rows enter
    the sum.  It is never negative, and it is 0 when prediction and target
    coincide at every masked point. *)
Theorem offset_norm_loss_value (E : Collaborators)
  (data_labels : PointGrouplabels) (out : PointGroupResults) :
  aligned data_labels (offset_logits out) ->
  let mask := instance_mask data_labels in
  let pt := Torch.select (offset_logits out) mask in
  let gt := Torch.select (vote_label data_labels) mask in
  exists n d,
    _offset_loss E data_labels out
    = Ok [(K_offset_norm_loss, n); (K_offset_dir_loss, d)] /\
    length pt = Torch.sum_bool mask /\
    length gt = Torch.sum_bool mask /\
    n == Torch.sum (Torch.zip_with l1_distance pt gt)
         / offset_denominator mask /\
    0 <= n /\
    (pt = gt -> n == 0).
Proof.
  intros [H1 H2] mask pt gt.
  assert (Hrun : _offset_loss E data_labels out
                 = Ok [(K_offset_norm_loss,
                        Torch.sum (map (fun d => V3.sum (V3.abs d))
                                     (Torch.zip_with V3.sub pt gt))
                        / offset_denominator mask);
                       (K_offset_dir_loss,
                        Torch.sum
                          (map (fun p => - V3.sum p)
                             (Torch.zip_with V3.mul
                                (Torch.zip_with
                                   (fun v n => V3.div_scalar v
                                                 (n + (1 # 100000000)))
                                   gt (map (norm_p2 E) gt))
                                (Torch.zip_with
                                   (fun v n => V3.div_scalar v
                                                 (n + (1 # 100000000)))
                                   pt (map (norm_p2 E) pt))))
                        / offset_denominator mask)]).
  { unfold _offset_loss, Torch.masked_select. fold mask.
    unfold mask at 1. rewrite H1, Nat.eqb_refl. cbn [bind].
    unfold mask at 1. rewrite H2, Nat.eqb_refl. cbn [bind]. reflexivity. }
  assert (Hsum : forall a b,
    Torch.sum (map (fun d => V3.sum (V3.abs d)) (Torch.zip_with V3.sub a b))
    == Torch.sum (Torch.zip_with l1_distance a b)).
  { induction a as [|u a IH]; intros [|v b]; simpl; try reflexivity.
    rewrite !sum_cons, IH, l1_row. reflexivity. }
  assert (Hnn : forall a b, 0 <= Torch.sum (Torch.zip_with l1_distance a b)).
  { induction a as [|u a IH]; intros [|v b]; simpl;
      try (unfold Torch.sum; simpl; lra).
    rewrite sum_cons. pose proof (l1_distance_nonneg u v).
    specialize (IH b). lra. }
  assert (Hz : forall a, Torch.sum (Torch.zip_with l1_distance a a) == 0).
  { induction a as [|u a IH]; simpl; [reflexivity|].
    rewrite sum_cons, IH, l1_distance_same. ring. }
  pose proof (offset_denominator_pos mask) as Hden.
  eexists. eexists. split; [exact Hrun|].
  split; [apply select_length; unfold mask; congruence|].
  split; [apply select_length; unfold mask; congruence|].
  split; [now rewrite Hsum|]. split.
  - rewrite Hsum. apply Qle_shift_div_l; [exact Hden|].
    rewrite Qmult_0_l. apply Hnn.
  - intros ->. rewrite Hsum, Hz. unfold Qdiv. apply Qmult_0_l.
Qed.

Lemma within_square (a b : Q) : 0 <= b -> a * a <= b * b -> - b <= a <= b.
Proof.
  intros Hb Hsq. split.
  - destruct (Qlt_le_dec a (- b)) as [H|H]; [|exact H]. exfalso. nra.
  - destruct (Qlt_le_dec b a) as [H|H]; [|exact H]. exfalso. nra.
Qed.

Lemma cauchy_schwarz (g p : vec3) :
  dot g p * dot g p <= dot g g * dot p p.
Proof.
  unfold dot. destruct g as [gx gy gz], p as [px py pz]. cbn [vx vy vz].
  assert (H : gx * gx * (px * px) + gx * gx * (py * py)
              + gx * gx * (pz * pz) + gy * gy * (px * px)
              + gy * gy * (py * py) + gy * gy * (pz * pz)
              + gz * gz * (px * px) + gz * gz * (py * py)
              + gz * gz * (pz * pz)
              - (gx * px + gy * py + gz * pz) * (gx * px + gy * py + gz * pz)
              == (gx * py - gy * px) * (gx * py - gy * px)
                 + (gx * pz - gz * px) * (gx * pz - gz * px)
                 + (gy * pz - gz * py) * (gy * pz - gz * py)) by ring.
  assert (Sq : forall a : Q, 0 <= a * a) by (intro a; nra).
  pose proof (Sq (gx * py - gy * px)) as S1.
  pose proof (Sq (gx * pz - gz * px)) as S2.
  pose proof (Sq (gy * pz - gz * py)) as S3.
  assert (E1 : (gx * gx + gy * gy + gz * gz) * (px * px + py * py + pz * pz)
               == gx * gx * (px * px) + gx * gx * (py * py)
                  + gx * gx * (pz * pz) + gy * gy * (px * px)
                  + gy * gy * (py * py) + gy * gy * (pz * pz)
                  + gz * gz * (px * px) + gz * gz * (py * py)
                  + gz * gz * (pz * pz)) by ring.
  rewrite E1. lra.
Qed.

(** One term of the direction loss, for rows whose norms are exact. *)
Lemma direction_term_bounded (g p : vec3) (G P : Q) :
  0 <= G -> G * G == dot g g -> 0 <= P -> P * P == dot p p ->
  -1 <= - V3.sum (V3.mul (V3.div_scalar g (G + (1 # 100000000)))
                         (V3.div_scalar p (P + (1 # 100000000)))) <= 1.
Proof.
  intros HG HGG HP HPP.
  set (eps := 1 # 100000000).
  assert (Heps : 0 < eps) by reflexivity.
  set (ia := / (G + eps)). set (ib := / (P + eps)).
  assert (Hia : ia * (G + eps) == 1)
    by (unfold ia; field; lra).
  assert (Hib : ib * (P + eps) == 1)
    by (unfold ib; field; lra).
  assert (Hia0 : 0 < ia) by (unfold ia; apply Qinv_lt_0_compat; lra).
  assert (Hib0 : 0 < ib) by (unfold ib; apply Qinv_lt_0_compat; lra).
  assert (Hval : V3.sum (V3.mul (V3.div_scalar g (G + eps))
                                (V3.div_scalar p (P + eps)))
                 == dot g p * (ia * ib)).
  { rewrite v3_sum_value. unfold dot, V3.mul, V3.div_scalar, Qdiv.
    cbn [vx vy vz]. fold ia ib. ring. }
  rewrite Hval.
  pose proof (cauchy_schwarz g p) as CS.
  rewrite <- HGG, <- HPP in CS.
  assert (Hsq : dot g p * dot g p <= (G * P) * (G * P)).
  { assert (Hr : G * G * (P * P) == G * P * (G * P)) by ring.
    rewrite <- Hr. exact CS. }
  assert (HGP : 0 <= G * P) by nra.
  destruct (within_square (dot g p) (G * P) HGP Hsq) as [Hlo Hhi].
  set (D := dot g p) in *.
  set (u := G * ia). set (v := P * ib).
  assert (Hu : 0 <= u <= 1) by (unfold u; split; nra).
  assert (Hv : 0 <= v <= 1) by (unfold v; split; nra).
  assert (Huv : 0 <= u * v <= 1) by (split; nra).
  assert (Hab : 0 < ia * ib) by nra.
  assert (Hp : G * P * (ia * ib) == u * v) by (unfold u, v; ring).
  assert (H1 : D * (ia * ib) <= G * P * (ia * ib)) by nra.
  assert (H2 : - (G * P * (ia * ib)) <= D * (ia * ib)) by nra.
  lra.
Qed.

Lemma direction_terms_bounded (norm : vec3 -> Q) (gt : list vec3) :
  forall pt,
    Forall (exact_norm norm) gt -> Forall (exact_norm norm) pt ->
    length gt = length pt ->
    let terms :=
      map (fun p => - V3.sum p)
        (Torch.zip_with V3.mul
           (Torch.zip_with
              (fun v n => V3.div_scalar v (n + (1 # 100000000)))
              gt (map norm gt))
           (Torch.zip_with
              (fun v n => V3.div_scalar v (n + (1 # 100000000)))
              pt (map norm pt))) in
    Forall (fun t => -1 <= t <= 1) terms /\ length terms = length gt.
Proof.
  induction gt as [|g gt IH]; intros [|p pt] Hg Hp Hlen; simpl in *;
    try discriminate.
  - split; [constructor|reflexivity].
  - inversion Hg as [|? ? [HG HGG] Hg']; subst.
    inversion Hp as [|? ? [HP HPP] Hp']; subst.
    injection Hlen as Hlen.
    destruct (IH pt Hg' Hp' Hlen) as [Hall Hl]. split.
    + constructor; [|exact Hall].
      now apply direction_term_bounded.
    + now rewrite Hl.
Qed.

(** X9.  When the norm collaborator is the Euclidean norm on the masked
    rows of the predicted offsets and of the vote targets, every term of
    the direction loss is a negated cosine in [-1, 1] and the
    offset-direction loss lies in [-1, 1]. *)
Theorem offset_dir_loss_bounded (E : Collaborators)
  (data_labels : PointGrouplabels) (out : PointGroupResults) :
  aligned data_labels (offset_logits out) ->
  Forall (exact_norm (norm_p2 E))
    (Torch.select (offset_logits out) (instance_mask data_labels)) ->
  Forall (exact_norm (norm_p2 E))
    (Torch.select (vote_label data_labels) (instance_mask data_labels)) ->
  exists n d,
    _offset_loss E data_labels out
    = Ok [(K_offset_norm_loss, n); (K_offset_dir_loss, d)] /\
    -1 <= d <= 1.
Proof.
  intros [H1 H2] Hpt Hgt.
  assert (Hrun : exists n,
    _offset_loss E data_labels out
    = Ok [(K_offset_norm_loss, n);
          (K_offset_dir_loss,
           Torch.sum
             (map (fun p => - V3.sum p)
                (Torch.zip_with V3.mul
                   (Torch.zip_with
                      (fun v n => V3.div_scalar v (n + (1 # 100000000)))
                      (Torch.select (vote_label data_labels)
                         (instance_mask data_labels))
                      (map (norm_p2 E)
                         (Torch.select (vote_label data_labels)
                            (instance_mask data_labels))))
                   (Torch.zip_with
                      (fun v n => V3.div_scalar v (n + (1 # 100000000)))
                      (Torch.select (offset_logits out)
                         (instance_mask data_labels))
                      (map (norm_p2 E)
                         (Torch.select (offset_logits out)
                            (instance_mask data_labels))))))
           / offset_denominator (instance_mask data_labels))]).
  { unfold _offset_loss, Torch.masked_select.
    rewrite H1, Nat.eqb_refl. cbn [bind].
    rewrite <- H1, H2, Nat.eqb_refl. cbn [bind].
    eexists. reflexivity. }
  destruct Hrun as [n Hrun].
  set (mask := instance_mask data_labels) in *.
  set (pt := Torch.select (offset_logits out) mask) in *.
  set (gt := Torch.select (vote_label data_labels) mask) in *.
  assert (Lpt : length pt = Torch.sum_bool mask)
    by (apply select_length; congruence).
  assert (Lgt : length gt = Torch.sum_bool mask)
    by (apply select_length; congruence).
  destruct (direction_terms_bounded (norm_p2 E) gt pt Hgt Hpt
              ltac:(congruence)) as [Hall Hlen].
  pose proof (sum_between (-1) 1 _ Hall) as Hsum.
  rewrite Hlen, Lgt in Hsum.
  pose proof (offset_denominator_pos mask) as Hden.
  eexists. eexists. split; [exact Hrun|].
  assert (Hk : inject_Z (Z.of_nat (Torch.sum_bool mask))
               <= offset_denominator mask).
  { unfold offset_denominator.
    assert (0 < 1 # 1000000) by reflexivity. lra. }
  split.
  - apply Qle_shift_div_l; [exact Hden|]. lra.
  - apply Qle_shift_div_r; [exact Hden|]. lra.
Qed.

(** ** Passes one after the other *)

Section Chaining.

Variable E : Collaborators.

(** The model a returning [_compute_loss] leaves. *)
Lemma compute_loss_state (m m' : PointGroup) (out : PointGroupResults) :
  all_outputs m = Some out ->
  _compute_loss E m = Ok m' ->
  exists total l s n d,
    m' = with_losses m total l s n d /\
    (s = None <-> cluster_scores out = None).
Proof.
  intros Hout Hrun.
  pose proof (compute_loss_inv E m m' out Hout Hrun) as Hinv.
  cbv zeta in Hinv.
  destruct Hinv as (n & d & Hoff & _ & _ & _ & _ & _ & Hcase).
  unfold _compute_loss in Hrun. rewrite Hout in Hrun.
  cbn [all_labels set_loss set_semantic_loss input opt] in Hrun.
  rewrite Hoff in Hrun. cbn [bind] in Hrun.
  destruct (cluster_scores out) as [scores|] eqn:Hsc.
  - destruct Hcase as (cl & inst & ious & ixs & s & Hcl & Hinst & Hmax & _).
    rewrite Hinst, Hcl in Hrun. unfold Torch.to_device in Hrun.
    rewrite Hmax in Hrun. cbn [bind] in Hrun.
    rewrite shat_entries in Hrun. cbn in Hrun. injection Hrun as <-.
    eexists _, _, (Some _), _, _.
    split; [unfold with_losses; cbn; reflexivity|].
    split; discriminate.
  - cbn in Hrun. injection Hrun as <-.
    eexists. eexists. exists None. eexists. eexists.
    split; [unfold with_losses; cbn; reflexivity|].
    split; reflexivity.
Qed.

Lemma forward_state (m m' : PointGroup) (epoch : Z) :
  forward E m epoch = Ok m' ->
  exists out total l s n d,
    m' = with_losses
           (set_outputs m (Semantic E (Backbone E (input m))) out)
           total l s n d /\
    (s = None <-> cluster_scores out = None).
Proof.
  intro Hrun.
  destruct (forward_inv E m m' epoch Hrun) as (sc & cls & _ & Hc).
  match type of Hc with
  | _compute_loss _ ?mm = _ =>
      destruct (compute_loss_state mm m' _ eq_refl Hc)
        as (total & l & s & n & d & Hm & Hs)
  end.
  eexists. exists total, l, s, n, d. split; [exact Hm|exact Hs].
Qed.


End Chaining.

(** X10.  A pass keeps what [set_input] stored and the train/eval flag: the
    options, the stuff classes, the raw positions, the batch and the labels
    are as before, and [output] holds the semantic logits. *)
Theorem forward_keeps_inputs (E : Collaborators) (m m' : PointGroup)
  (epoch : Z) :
  forward E m epoch = Ok m' ->
  same_inputs m m' /\
  training m' = training m /\
  output m' = Some (Semantic E (Backbone E (input m))).
Proof.
  intro Hrun.
  destruct (forward_state E m m' epoch Hrun)
    as (out & total & l & s & n & d & -> & _).
  repeat split.
Qed.


(** ** [set_input] *)

Lemma zip3_columns (a : list Q) :
  forall b c, length a = length b -> length b = length c ->
    map vx (zip3 a b c) = a /\ map vy (zip3 a b c) = b /\
    map vz (zip3 a b c) = c.
Proof.
  induction a as [|x a IH]; intros [|y b] [|z c] H1 H2; simpl in *;
    try discriminate.
  - repeat split.
  - destruct (IH b c) as (Ha & Hb & Hc); [congruence|congruence|].
    rewrite Ha, Hb, Hc. repeat split.
Qed.

Lemma zip3_nth (a : list Q) :
  forall b c i x y z,
    nth_error a i = Some x -> nth_error b i = Some y ->
    nth_error c i = Some z ->
    nth_error (zip3 a b c) i = Some (Vec3 x y z).
Proof.
  induction a as [|x0 a IH]; intros [|y0 b] [|z0 c] [|i] x y z Ha Hb Hc;
    simpl in *; try discriminate.
  - congruence.
  - now apply IH.
Qed.

(** X12.  [set_input] returns exactly when the batch carries the three
    coordinate tensors with one common length and every required label;
    a missing attribute is an attribute error, coordinate tensors of
    different lengths are a runtime error of [torch.stack]. *)
Theorem set_input_returns_iff (m : PointGroup) (data : Batch.t) :
  let coordinates :=
    match Batch.pos_x data, Batch.pos_y data, Batch.pos_z data with
    | Some px, Some py, Some pz => Some (px, py, pz)
    | _, _, _ => None
    end in
  let labels_present :=
    match Batch.y data, Batch.center_label data, Batch.num_instances data,
          Data.instance_labels (Batch.payload data),
          Batch.instance_mask data, Batch.vote_label data with
    | Some _, Some _, Some _, Some _, Some _, Some _ => true
    | _, _, _, _, _, _ => false
    end in
  match coordinates with
  | None => set_input m data = Raise AttributeError
  | Some (px, py, pz) =>
      if Nat.eqb (length px) (length py) && Nat.eqb (length py) (length pz)
      then
        if labels_present then exists m', set_input m data = Ok m'
        else set_input m data = Raise AttributeError
      else set_input m data = Raise RuntimeError
  end.
Proof.
  unfold set_input, stack3_T.
  destruct (Batch.pos_x data) as [px|]; [|reflexivity].
  destruct (Batch.pos_y data) as [py|]; [|reflexivity].
  destruct (Batch.pos_z data) as [pz|]; [|reflexivity].
  cbn [getattr bind].
  destruct (Nat.eqb (length px) (length py) && Nat.eqb (length py) (length pz));
    [|reflexivity].
  cbn [bind].
  destruct (Batch.y data); [|reflexivity].
  destruct (Batch.center_label data); [|reflexivity].
  destruct (Batch.num_instances data); [|reflexivity].
  destruct (Data.instance_labels (Batch.payload data)); [|reflexivity].
  destruct (Batch.instance_mask data); [|reflexivity].
  destruct (Batch.vote_label data); [|reflexivity].
  cbn. eexists. reflexivity.
Qed.

(** X13.  After a returning [set_input] the raw positions have one row per
    point, made of the point's three coordinates; the model's labels are
    the batch's [y], which is also the [y] of the label tuple; the instance
    labels of the label tuple are those of the stored batch; and the
    options, the train/eval flag and whatever outputs and losses the model
    carried are left as they were. *)
Theorem set_input_stores (m m' : PointGroup) (data : Batch.t) :
  set_input m data = Ok m' ->
  exists px py pz,
    Batch.pos_x data = Some px /\ Batch.pos_y data = Some py /\
    Batch.pos_z data = Some pz /\
    length (raw_pos m') = length px /\
    map vx (raw_pos m') = px /\ map vy (raw_pos m') = py /\
    map vz (raw_pos m') = pz /\
    input m' = Batch.payload data /\
    Batch.y data = Some (labels m') /\
    y (all_labels m') = labels m' /\
    Data.instance_labels (input m')
    = Some (instance_labels (all_labels m')) /\
    Batch.instance_mask data = Some (instance_mask (all_labels m')) /\
    Batch.vote_label data = Some (vote_label (all_labels m')) /\
    opt m' = opt m /\ _stuff_classes m' = _stuff_classes m /\
    training m' = training m /\
    all_outputs m' = all_outputs m /\ loss m' = loss m /\
    score_loss m' = score_loss m.
Proof.
  unfold set_input, stack3_T.
  destruct (Batch.pos_x data) as [px|]; [|discriminate].
  destruct (Batch.pos_y data) as [py|]; [|discriminate].
  destruct (Batch.pos_z data) as [pz|]; [|discriminate].
  cbn [getattr bind].
  destruct (Nat.eqb (length px) (length py)) eqn:H1; [|discriminate].
  destruct (Nat.eqb (length py) (length pz)) eqn:H2; [|discriminate].
  apply Nat.eqb_eq in H1, H2. cbn [andb bind].
  destruct (Batch.y data) as [dy|]; [|discriminate].
  destruct (Batch.center_label data); [|discriminate].
  destruct (Batch.num_instances data); [|discriminate].
  destruct (Data.instance_labels (Batch.payload data)) eqn:Hi;
    [|discriminate].
  destruct (Batch.instance_mask data); [|discriminate].
  destruct (Batch.vote_label data); [|discriminate].
  cbn [bind]. intro H. injection H as <-.
  destruct (zip3_columns px py pz H1 H2) as (Hx & Hy & Hz).
  exists px, py, pz. cbn. unfold Torch.to_device.
  rewrite Hx, Hy, Hz.
  repeat split; try reflexivity; try assumption.
  rewrite <- Hx at 2. now rewrite length_map.
Qed.

(** X14.  After [set_input], a pass never fails with an attribute error:
    the instance labels that the score loss reads from the batch are the
    ones [set_input] required. *)
Theorem forward_after_set_input (E : Collaborators) (m m1 : PointGroup)
  (data : Batch.t) (epoch : Z) :
  set_input m data = Ok m1 ->
  forward E m1 epoch <> Raise AttributeError /\
  forward E m1 epoch <> Raise AssertionError.
Proof.
  intro Hset.
  assert (Hinst : Data.instance_labels (input m1) <> None).
  { unfold set_input in Hset.
    destruct (getattr (Batch.pos_x data)); [|discriminate].
    destruct (getattr (Batch.pos_y data)); [|discriminate].
    destruct (getattr (Batch.pos_z data)); [|discriminate].
    cbn [bind] in Hset.
    destruct (stack3_T _ _ _); [|discriminate]. cbn [bind] in Hset.
    destruct (getattr (Batch.y data)); [|discriminate].
    destruct (getattr (Batch.center_label data)); [|discriminate].
    destruct (getattr (Batch.num_instances data)); [|discriminate].
    cbn [bind] in Hset.
    destruct (Data.instance_labels (Batch.payload data)) eqn:Hi;
      [|discriminate].
    cbn [getattr bind] in Hset.
    destruct (getattr (Batch.instance_mask data)); [|discriminate].
    destruct (getattr (Batch.vote_label data)); [|discriminate].
    cbn [bind] in Hset. injection Hset as <-. cbn. congruence. }
  assert (Hcases : forall e, forward E m1 epoch = Raise e ->
                             e <> AttributeError /\ e <> AssertionError).
  { intros e Hrun. unfold forward in Hrun.
    destruct (group_and_score E m1 epoch _ _ _) as [[sc cls]|e0] eqn:Hg.
    - cbn [bind] in Hrun.
      destruct (compute_loss_raise E _ e Hrun) as (Hna & Hattr & _).
      split; [|exact Hna].
      intro He. destruct (Hattr He) as [Hnone|(out & scores & _ & _ & Hi)];
        [discriminate|].
      cbn in Hi. contradiction.
    - cbn [bind] in Hrun. injection Hrun as <-.
      destruct (group_and_score_raise E m1 epoch _ _ _ e0 Hg)
        as [_ [->|[-> _]]]; split; discriminate. }
  split; intro Hrun; destruct (Hcases _ Hrun) as [H1 H2]; congruence.
Qed.

(** ** Row maxima and their indices *)

Lemma max_row_from_index (row : list Q) :
  forall pre best bi i,
    length pre = i ->
    nth_error pre bi = Some best ->
    (forall x, In x pre -> x <= best) ->
    let r := Torch.max_row_from best bi i row in
    nth_error (pre ++ row) (snd r) = Some (fst r) /\
    forall x, In x (pre ++ row) -> x <= fst r.
Proof.
  induction row as [|x row IH]; intros pre best bi i Hlen Hbest Hmax; simpl.
  - rewrite app_nil_r. split; assumption.
  - assert (Happ : pre ++ x :: row = (pre ++ [x]) ++ row)
      by (rewrite <- app_assoc; reflexivity).
    rewrite Happ.
    destruct (Torch.Qlt_bool best x) eqn:Hb.
    + apply Qlt_bool_true in Hb.
      apply IH.
      * rewrite length_app. simpl. lia.
      * rewrite nth_error_app2 by lia.
        replace (i - length pre)%nat with 0%nat by lia. reflexivity.
      * intros z Hz. apply in_app_or in Hz as [Hz|[<-|[]]].
        -- specialize (Hmax z Hz). lra.
        -- apply Qle_refl.
    + apply Qlt_bool_false in Hb.
      apply IH.
      * rewrite length_app. simpl. lia.
      * rewrite nth_error_app1; [exact Hbest|].
        apply nth_error_Some. congruence.
      * intros z Hz. apply in_app_or in Hz as [Hz|[<-|[]]].
        -- now apply Hmax.
        -- exact Hb.
Qed.

Lemma max_row_index (row : list Q) (v : Q) (k : nat) :
  Torch.max_row row = Ok (v, k) ->
  nth_error row k = Some v /\ forall x, In x row -> x <= v.
Proof.
  destruct row as [|x row]; [discriminate|]. simpl. intro H.
  injection H as H.
  pose proof (max_row_from_index row [x] x 0%nat 1%nat eq_refl eq_refl) as Hm.
  cbv zeta in Hm. rewrite H in Hm. apply Hm.
  intros z [<-|[]]. apply Qle_refl.
Qed.

(** X15.  [t.max(1)] returns, for every row, a value and an index such
    that the row holds that value at that index and no larger entry: the
    predicted label of a point is a valid class index at which its
    log-probability is largest, and the IoU of a cluster is attained at a
    ground-truth instance. *)
Theorem max_dim1_indices (t : list (list Q)) (vals : list Q)
  (ixs : list nat) :
  Torch.max_dim1 t = Ok (vals, ixs) ->
  length vals = length t /\ length ixs = length t /\
  forall i row, nth_error t i = Some row ->
    exists v k,
      nth_error vals i = Some v /\ nth_error ixs i = Some k /\
      (k < length row)%nat /\
      nth_error row k = Some v /\
      forall x, In x row -> x <= v.
Proof.
  revert vals ixs.
  induction t as [|row t IH]; intros vals ixs H; simpl in H.
  - injection H as <- <-. repeat split. intros [|i] row Hi; discriminate.
  - destruct (Torch.max_row row) as [[v k]|e] eqn:Hrow; [|discriminate].
    cbn [bind] in H.
    destruct (Torch.max_dim1 t) as [[vs ks]|e] eqn:Ht; [|discriminate].
    cbn [bind] in H. injection H as <- <-.
    destruct (IH vs ks eq_refl) as (Hl1 & Hl2 & Hrows).
    split; [simpl; congruence|]. split; [simpl; congruence|].
    intros [|i] r Hi; simpl in Hi.
    + injection Hi as <-.
      destruct (max_row_index row v k Hrow) as [Hk Hmax].
      exists v, k. repeat split; try assumption.
      apply nth_error_Some. congruence.
    + exact (Hrows i r Hi).
Qed.

(** ** When an active pass returns *)


(* ===================================================================== *)
(** * Part III: the properties on concrete passes                         *)
(* ===================================================================== *)

Lemma toy_thresholds : 0 <= 1 # 4 /\ 1 # 4 < 3 # 4 /\ 3 # 4 <= 1.
Proof. repeat split; unfold Qle, Qlt; simpl; lia. Defined.

Lemma toy_aligned :
  aligned (all_labels Toy.scored)
    (offset_logits (Toy.results (Vec3 1 0 0) (Some [1 # 2; 1 # 2])
                      (Some [[0; 1]; [0; 1]]%nat))).
Proof. split; reflexivity. Defined.

(** C1 on the toy model: two clusters, IoU rows [2/3, 1/4]. *)
Lemma C1_score_target_piecewise_witness :
  (0 <= 1 # 4 /\ 1 # 4 < 3 # 4 /\ 3 # 4 <= 1) /\
  exists m' shat,
    _compute_loss Toy.E Toy.scored = Ok m' /\
    score_loss m'
    = Some (binary_cross_entropy Toy.E [1 # 2; 1 # 2] shat) /\
    length shat = 2%nat.
Proof.
  split; [exact toy_thresholds|].
  destruct (C1_score_target_piecewise Toy.E Toy.scored
              (Toy.results (Vec3 1 0 0) (Some [1 # 2; 1 # 2])
                 (Some [[0; 1]; [0; 1]]%nat))
              [1 # 2; 1 # 2] eq_refl eq_refl toy_thresholds)
    as [Hres Hret].
  destruct (Hret [[0; 1]; [0; 1]]%nat [7; 7; 0]%Z eq_refl eq_refl
              toy_aligned ltac:(repeat constructor; discriminate))
    as [m' Hrun].
  destruct (Hres m' Hrun)
    as (cl & inst & shat & Hcl & Hinst & Hs & Hlen & _).
  injection Hcl as <-. injection Hinst as <-.
  exists m', shat. split; [exact Hrun|]. split; [exact Hs|exact Hlen].
Defined.

(** C2 with the thresholds 1/4 and 3/4. *)
Lemma C2_score_target_monotone_continuous_witness :
  (0 <= 1 # 4 /\ 1 # 4 < 3 # 4 /\ 3 # 4 <= 1) /\
  (forall iou1 iou2 t1 t2,
     target_of (1 # 4) (3 # 4) iou1 t1 ->
     target_of (1 # 4) (3 # 4) iou2 t2 ->
     iou1 <= iou2 -> t1 <= t2) /\
  (forall iou t, target_of (1 # 4) (3 # 4) iou t -> iou == 1 # 4 -> t == 0) /\
  (forall iou t, target_of (1 # 4) (3 # 4) iou t -> iou == 3 # 4 -> t == 1).
Proof.
  split; [exact toy_thresholds|].
  destruct (C2_score_target_monotone_continuous (1 # 4) (3 # 4)
              toy_thresholds)
    as (_ & _ & Hmono & Hmin & Hmax & _).
  split; [exact Hmono|]. split; [exact Hmin|exact Hmax].
Defined.

(** C3 on three clusters, one per bucket. *)
Lemma C3_iou_buckets_partition_witness :
  1 # 4 < 3 # 4 /\
  (Torch.sum_bool (ScoreTarget.lower_mask (1 # 4) [1 # 10; 1 # 2; 9 # 10])
   + Torch.sum_bool (ScoreTarget.higher_mask (3 # 4) [1 # 10; 1 # 2; 9 # 10])
   + Torch.sum_bool
       (ScoreTarget.middle_mask (1 # 4) (3 # 4) [1 # 10; 1 # 2; 9 # 10])
   = 3)%nat /\
  ScoreTarget.partition_assertion (1 # 4) (3 # 4) [1 # 10; 1 # 2; 9 # 10]
  = true.
Proof.
  assert (H : 1 # 4 < 3 # 4) by reflexivity.
  split; [exact H|].
  destruct (C3_iou_buckets_partition (1 # 4) (3 # 4)
              [1 # 10; 1 # 2; 9 # 10] H)
    as (_ & Hcount & Hassert & _).
  split; [exact Hcount|exact Hassert].
Defined.

(** C4 on the toy model at epoch 7, past the warm-up: each region-growing
    call returns the region [0; 1] and both copies are kept. *)
Lemma C4_clusters_are_concatenation_witness :
  clustering_active 7 (prepare_epoch (opt Toy.fresh)) = true /\
  exists m' out,
    forward Toy.E Toy.fresh 7 = Ok m' /\
    all_outputs m' = Some out /\
    clusters out = Some [[0; 1]; [0; 1]]%nat.
Proof.
  split; [reflexivity|].
  assert (Hrun : exists m', forward Toy.E Toy.fresh 7 = Ok m')
    by (vm_compute; eexists; reflexivity).
  destruct Hrun as [m' Hrun].
  destruct (C4_clusters_are_concatenation Toy.E Toy.fresh 7
              [1; 1; 1] [1; 1; 0]%nat
              [Vec3 0 1 0; Vec3 1 1 0; Vec3 6 5 5]
              eq_refl eq_refl eq_refl)
    as (_ & _ & _ & Hfw).
  destruct (Hfw m' Hrun) as (out & Hout & Hcl).
  exists m', out. split; [exact Hrun|]. split; [exact Hout|exact Hcl].
Defined.

(** C5 (amended) on the toy model at epoch 3, inside the warm-up. *)
Lemma C5_inactive_pass_witness :
  clustering_active 3 (prepare_epoch (opt Toy.fresh)) = false /\
  exists m' out,
    forward Toy.E Toy.fresh 3 = Ok m' /\
    all_outputs m' = Some out /\
    clusters out = None /\
    cluster_scores out = None /\
    contribution m' K_score_loss = 0.
Proof.
  split; [reflexivity|].
  destruct (C5_inactive_pass Toy.E Toy.fresh 3 eq_refl)
    as (_ & Hres & Hret & _).
  destruct (Hret ltac:(split; reflexivity)) as [m' Hrun].
  destruct (Hres m' Hrun)
    as (out & sem & n & d & Hout & Hcl & Hsc & _ & _ & _ & _ & Hc & _).
  exists m', out. repeat (split; [assumption|]). exact Hc.
Defined.

(** C5 as stated fails on an evaluation-mode pass: the model is in
    evaluation mode, the caller passes epoch 0 during the warm-up, and
    clustering is inactive; the outputs then hold no cluster list at all
    ([None], which is not the empty list). *)
Lemma C5_counterexample_eval_mode_inactive :
  training Toy.in_eval = false /\
  clustering_active 0 (prepare_epoch (opt Toy.in_eval)) = false /\
  exists m' out,
    forward Toy.E Toy.in_eval 0 = Ok m' /\
    all_outputs m' = Some out /\
    cluster_scores out = None /\
    clusters out = None /\
    clusters out <> Some [].
Proof.
  split; [reflexivity|]. split; [reflexivity|].
  vm_compute. eexists. eexists.
  split; [reflexivity|]. split; [reflexivity|].
  split; [reflexivity|]. split; [reflexivity|]. discriminate.
Qed.

(** C6 on the toy model with every class ignored. *)
Lemma C6_empty_cluster_list_witness :
  clustering_active 7 (prepare_epoch (opt Toy.all_stuff)) = true /\
  exists m' out,
    forward Toy.E Toy.all_stuff 7 = Ok m' /\
    all_outputs m' = Some out /\
    clusters out = Some [] /\
    cluster_scores out = None /\
    contribution m' K_score_loss = 0.
Proof.
  split; [reflexivity|].
  destruct (C6_empty_cluster_list Toy.E Toy.all_stuff 7
              [1; 1; 1] [1; 1; 0]%nat
              [Vec3 0 1 0; Vec3 1 1 0; Vec3 6 5 5]
              eq_refl eq_refl eq_refl eq_refl)
    as [_ Hfw].
  destruct (Hfw ltac:(split; reflexivity))
    as (m' & out & sem & n & d & Hrun & Hout & Hcl & Hsc & _ & _ & _ & _
        & Hc & _).
  exists m', out. repeat (split; [assumption|]). exact Hc.
Defined.

(** C7 on three points, the third outside every instance: its offset and
    its vote target are changed, the losses are not. *)
Lemma C7_offset_loss_masked_only_witness :
  nth_error (instance_mask (Toy.point_labels [true; true; false] (Vec3 0 0 0)))
    2 = Some false /\
  _offset_loss Toy.E
    (Toy.point_labels [true; true; false] (Vec3 0 0 0))
    (Toy.results (Vec3 1 0 0) None None)
  = _offset_loss Toy.E
      (Toy.point_labels [true; true; false] (Vec3 9 9 9))
      (Toy.results (Vec3 (-4) 2 7) None None).
Proof.
  split; [reflexivity|].
  apply (C7_offset_loss_masked_only Toy.E
           (Toy.point_labels [true; true; false] (Vec3 0 0 0))
           (Toy.point_labels [true; true; false] (Vec3 9 9 9))
           (Toy.results (Vec3 1 0 0) None None)
           (Toy.results (Vec3 (-4) 2 7) None None));
    try reflexivity.
  intros [|[|[|i]]] Hi; simpl in Hi; try discriminate;
    split; reflexivity.
Defined.

(** C8 on three points, none of them in an instance. *)
Lemma C8_offset_loss_without_masked_points_witness :
  ~ In true (instance_mask
               (Toy.point_labels [false; false; false] (Vec3 0 0 0))) /\
  exists n d,
    _offset_loss Toy.E
      (Toy.point_labels [false; false; false] (Vec3 0 0 0))
      (Toy.results (Vec3 1 0 0) None None)
    = Ok [(K_offset_norm_loss, n); (K_offset_dir_loss, d)] /\
    n == 0 /\ d == 0.
Proof.
  assert (Hno : ~ In true (instance_mask
                    (Toy.point_labels [false; false; false] (Vec3 0 0 0)))).
  { simpl. intros [H|[H|[H|[]]]]; discriminate. }
  split; [exact Hno|].
  destruct (C8_offset_loss_without_masked_points Toy.E
              (Toy.point_labels [false; false; false] (Vec3 0 0 0))
              (Toy.results (Vec3 1 0 0) None None)
              ltac:(split; reflexivity) Hno)
    as (n & d & Hrun & _ & _ & _ & _ & Hn & Hd).
  exists n, d. split; [exact Hrun|]. split; [exact Hn|exact Hd].
Defined.

(** C9 on the toy model with two scored clusters; the weight of the score
    loss is doubled. *)
Lemma C9_total_loss_weighted_sum_witness :
  exists m1 m2 t1 t2,
    _compute_loss Toy.E Toy.scored = Ok m1 /\
    _compute_loss Toy.E
      (with_opt Toy.scored (scale_weight (opt Toy.scored) K_score_loss 2))
    = Ok m2 /\
    (forall k', sub_loss m2 k' = sub_loss m1 k') /\
    contribution m2 K_score_loss == 2 * contribution m1 K_score_loss /\
    loss m1 = Some t1 /\
    loss m2 = Some t2 /\
    t2 - contribution m2 K_score_loss == t1 - contribution m1 K_score_loss.
Proof.
  assert (Hrun : exists m1, _compute_loss Toy.E Toy.scored = Ok m1)
    by (vm_compute; eexists; reflexivity).
  destruct Hrun as [m1 Hrun].
  destruct (C9_total_loss_weighted_sum Toy.E Toy.scored m1 _ eq_refl Hrun)
    as [_ Hscale].
  destruct (Hscale K_score_loss 2)
    as (m2 & t1 & t2 & Hrun2 & Hsub & Hk & _ & Hl1 & Hl2 & _ & Hrest).
  exists m1, m2, t1, t2.
  repeat (split; [assumption|]). exact Hrest.
Defined.

(** C10 (amended) at [epoch = prepare_epoch = 5]. *)
Lemma C10_gate_witness :
  clustering_active 5 5 = false /\ clustering_active 6 5 = true.
Proof.
  destruct (C10_gate 5 5) as (_ & Heq & _).
  destruct (C10_gate 6 5) as (Hiff & _).
  split.
  - apply Heq; [reflexivity|discriminate].
  - apply Hiff. right. reflexivity.
Defined.

(** C10 as stated fails when [prepare_epoch] is -1: at
    [epoch = prepare_epoch = -1] clustering is active, and the pass of the
    toy model with no warm-up groups and scores its clusters. *)
Lemma C10_counterexample_prepare_epoch_minus_one :
  prepare_epoch (opt Toy.no_warmup) = (-1)%Z /\
  clustering_active (-1) (prepare_epoch (opt Toy.no_warmup)) = true /\
  exists m' out,
    forward Toy.E Toy.no_warmup (-1) = Ok m' /\
    all_outputs m' = Some out /\
    clusters out = Some [[0; 1]; [0; 1]]%nat /\
    cluster_scores out = Some [1 # 2; 1 # 2].
Proof.
  split; [reflexivity|]. split; [reflexivity|].
  vm_compute. eexists. eexists.
  split; [reflexivity|]. split; [reflexivity|]. split; reflexivity.
Qed.

(* ===================================================================== *)
(** * Part IV: the further properties on concrete passes                  *)
(* ===================================================================== *)

(** X1 on two clusters over three points. *)
Lemma batch_clusters_spec_witness :
  exists x pos,
    batch_clusters [[0; 1; 0]; [0; 1; 0]; [1; 0; 0]]
      [Vec3 0 0 0; Vec3 1 0 0; Vec3 5 5 5] 0 [[2; 0]; [1]]%nat
    = Ok (x, pos, [[0; 0]; [1]]%nat) /\
    length (concat x) = 3%nat /\ length (concat pos) = 3%nat.
Proof.
  destruct (batch_clusters_spec
              [[0; 1; 0]; [0; 1; 0]; [1; 0; 0]]
              [Vec3 0 0 0; Vec3 1 0 0; Vec3 5 5 5] [[2; 0]; [1]]%nat)
    as (_ & Hok & Hblocks).
  destruct (Hok eq_refl) as (x & pos & Hrun).
  destruct (Hblocks x pos _ Hrun) as (_ & _ & _ & _ & Hx & Hp & _).
  exists x, pos. split; [exact Hrun|]. split; [exact Hx|exact Hp].
Defined.

(** X3 on the toy model past the warm-up. *)
Lemma forward_outputs_shape_witness :
  exists m' out cl,
    forward Toy.E Toy.fresh 7 = Ok m' /\
    all_outputs m' = Some out /\
    clusters out = Some cl /\ (cluster_scores out = None <-> cl = []).
Proof.
  assert (Hrun : exists m', forward Toy.E Toy.fresh 7 = Ok m')
    by (vm_compute; eexists; reflexivity).
  destruct Hrun as [m' Hrun].
  destruct (forward_outputs_shape Toy.E Toy.fresh m' 7 Hrun)
    as (out & Hout & _ & _ & _ & Hon).
  destruct (Hon eq_refl) as (cl & Hcl & Hiff).
  exists m', out, cl. repeat split; try assumption; apply Hiff.
Defined.


(** X5 with the thresholds 1/4 and 3/4. *)
Lemma shat_in_unit_interval_witness :
  1 # 4 < 3 # 4 /\
  exists shat,
    ScoreTarget.shat (1 # 4) (3 # 4) [1 # 10; 1 # 2; 9 # 10] = Ok shat /\
    Forall (fun t => 0 <= t <= 1) shat.
Proof.
  assert (H : 1 # 4 < 3 # 4) by reflexivity.
  split; [exact H|].
  destruct (shat_in_unit_interval (1 # 4) (3 # 4) [1 # 10; 1 # 2; 9 # 10] H)
    as (shat & Hs & _ & Hall).
  exists shat. split; [exact Hs|exact Hall].
Defined.

(** X6 with the thresholds exchanged. *)
Lemma shat_reversed_thresholds_witness :
  1 # 4 < 3 # 4 /\
  exists shat,
    ScoreTarget.shat (3 # 4) (1 # 4) [1 # 10; 1 # 2; 9 # 10] = Ok shat /\
    nth_error shat 0 = Some 0 /\ nth_error shat 1 = Some 1.
Proof.
  assert (H : 1 # 4 < 3 # 4) by reflexivity.
  split; [exact H|].
  destruct (shat_reversed_thresholds (3 # 4) (1 # 4)
              [1 # 10; 1 # 2; 9 # 10] H)
    as (shat & Hs & _ & Hall).
  exists shat. split; [exact Hs|]. split.
  - apply (Hall 0%nat (1 # 10) eq_refl). unfold Qle; simpl; lia.
  - apply (Hall 1%nat (1 # 2) eq_refl). reflexivity.
Defined.

Lemma toy_labels_aligned :
  aligned (Toy.point_labels [true; true; false] (Vec3 0 0 0))
    (offset_logits (Toy.results (Vec3 1 0 0) None None)).
Proof. split; reflexivity. Defined.

(** X8 on the toy labels: two masked points. *)
Lemma offset_norm_loss_value_witness :
  exists n d,
    _offset_loss Toy.E
      (Toy.point_labels [true; true; false] (Vec3 0 0 0))
      (Toy.results (Vec3 1 0 0) None None)
    = Ok [(K_offset_norm_loss, n); (K_offset_dir_loss, d)] /\
    0 <= n.
Proof.
  destruct (offset_norm_loss_value Toy.E
              (Toy.point_labels [true; true; false] (Vec3 0 0 0))
              (Toy.results (Vec3 1 0 0) None None) toy_labels_aligned)
    as (n & d & Hrun & _ & _ & _ & Hn & _).
  exists n, d. split; [exact Hrun|exact Hn].
Defined.

Lemma toy_exact_norm (v : vec3) (r : Q) :
  Toy.norm_isqrt v = r -> 0 <= r -> r * r == dot v v ->
  exact_norm (norm_p2 Toy.E) v.
Proof. intros <- H1 H2. split; assumption. Defined.

(** X9 on the toy labels: the masked offsets have norm 1, the masked vote
    targets norm 5. *)
Lemma offset_dir_loss_bounded_witness :
  exists n d,
    _offset_loss Toy.E
      (Toy.point_labels [true; true; false] (Vec3 0 0 0))
      (Toy.results (Vec3 1 0 0) None None)
    = Ok [(K_offset_norm_loss, n); (K_offset_dir_loss, d)] /\
    -1 <= d <= 1.
Proof.
  apply (offset_dir_loss_bounded Toy.E
           (Toy.point_labels [true; true; false] (Vec3 0 0 0))
           (Toy.results (Vec3 1 0 0) None None) toy_labels_aligned).
  - repeat constructor;
      apply (toy_exact_norm _ 1); try reflexivity; unfold Qle; simpl; lia.
  - repeat constructor;
      apply (toy_exact_norm _ 5); try reflexivity; unfold Qle; simpl; lia.
Defined.

(** X10 on the toy model. *)
Lemma forward_keeps_inputs_witness :
  exists m',
    forward Toy.E Toy.fresh 7 = Ok m' /\
    same_inputs Toy.fresh m' /\ training m' = true.
Proof.
  assert (Hrun : exists m', forward Toy.E Toy.fresh 7 = Ok m')
    by (vm_compute; eexists; reflexivity).
  destruct Hrun as [m' Hrun].
  destruct (forward_keeps_inputs Toy.E Toy.fresh m' 7 Hrun)
    as (Hsame & Htr & _).
  exists m'. split; [exact Hrun|]. split; [exact Hsame|exact Htr].
Defined.



(** X13 on a model used before and a complete batch. *)
Lemma set_input_stores_witness :
  exists m',
    set_input ToyBatch.used ToyBatch.good = Ok m' /\
    map vx (raw_pos m') = [0; 1; 5] /\
    y (all_labels m') = labels m' /\
    loss m' = Some 9.
Proof.
  assert (Hrun : exists m', set_input ToyBatch.used ToyBatch.good = Ok m')
    by (eexists; reflexivity).
  destruct Hrun as [m' Hrun].
  destruct (set_input_stores ToyBatch.used m' ToyBatch.good Hrun)
    as (px & py & pz & Hpx & _ & _ & _ & Hx & _ & _ & _ & _ & Hy & _ & _ & _
        & _ & _ & _ & _ & Hl & _).
  exists m'. split; [exact Hrun|].
  injection Hpx as <-. split; [exact Hx|]. split; [exact Hy|exact Hl].
Defined.

(** X14 on the same model and batch. *)
Lemma forward_after_set_input_witness :
  exists m1,
    set_input ToyBatch.used ToyBatch.good = Ok m1 /\
    forward Toy.E m1 7 <> Raise AttributeError.
Proof.
  assert (Hrun : exists m', set_input ToyBatch.used ToyBatch.good = Ok m')
    by (eexists; reflexivity).
  destruct Hrun as [m1 Hrun].
  exists m1. split; [exact Hrun|].
  exact (proj1 (forward_after_set_input Toy.E ToyBatch.used m1 ToyBatch.good
                  7 Hrun)).
Defined.

(** X15 on the toy logits. *)
Lemma max_dim1_indices_witness :
  Torch.max_dim1 [[0; 1; 0]; [0; 1; 0]; [1; 0; 0]]
  = Ok ([1; 1; 1], [1; 1; 0]%nat) /\
  length [1; 1; 0]%nat = 3%nat.
Proof.
  assert (H : Torch.max_dim1 [[0; 1; 0]; [0; 1; 0]; [1; 0; 0]]
              = Ok ([1; 1; 1], [1; 1; 0]%nat)) by reflexivity.
  split; [exact H|].
  exact (proj1 (proj2 (max_dim1_indices _ _ _ H))).
Defined.

